(** * Customer Sales Analysis: a shallow embedding of [main.py]

    The script loads two tables, joins them, derives five aggregate views
    and a pivot table, and prints a report.  The tables are modelled as
    lists of records (a DataFrame is its sequence of rows), a Series as an
    association list from index label to value, in index order.

    Scope of the model:
    - a cell of a label column (order_id, customer_id, product_name,
      order_date, region, customer_name) may be missing: [None] stands for
      the NaN or NaT that pandas puts there;
    - quantity and price are integer columns with every cell present (dtype
      int64), so revenue and its sums are int64 and wrap around at 64 bits
      as numpy does; a table with decimal prices has float64 revenue and is
      outside the model, and the properties below say so where it matters;
    - true division, [mean] and the cells of a pivot table with an empty
      cell are float64 in pandas; they are IEEE binary64 numbers here;
    - [sort_values] uses numpy's default sort, whose order among equal
      values is not fixed by pandas; the model sorts stably, the way
      [nargsort] arranges a descending sort (reverse, sort ascending,
      reverse);
    - reading the CSV files, drawing the charts, formatting the printed
      lines and writing the pivot CSV are outside the model, and so are the
      errors of a table that lacks a column. *)

From Stdlib Require Import Floats.
From Stdlib Require Import ZArith List String Ascii Bool Lia.
From Stdlib Require Import Permutation Sorted.
Import ListNotations.
Open Scope Z_scope.

(** ** Exceptions and the error monad *)

Record Exception := mkException { exc_type : string; exc_msg : string }.

Definition Result (A : Type) : Type := (Exception + A)%type.

Definition ret {A} (a : A) : Result A := inr a.
Definition raise {A} (e : Exception) : Result A := inl e.
Definition bind {A B} (m : Result A) (k : A -> Result B) : Result B :=
  match m with
  | inl e => inl e
  | inr a => k a
  end.

Notation "x <- m ;; k" := (bind m (fun x => k))
  (at level 61, m at next level, right associativity).

Fixpoint mapM {A B} (f : A -> Result B) (l : list A) : Result (list B) :=
  match l with
  | [] => ret []
  | x :: t => y <- f x ;; ys <- mapM f t ;; ret (y :: ys)
  end.

(** ** int64 arithmetic *)

Definition int64_wrap (z : Z) : Z := (z + 2 ^ 63) mod 2 ^ 64 - 2 ^ 63.
Definition int64_mul (a b : Z) : Z := int64_wrap (a * b).
Definition int64_add (a b : Z) : Z := int64_wrap (a + b).

(** [Series.sum()] over an int64 column. *)
Definition int64_sum (l : list Z) : Z := fold_left int64_add l 0.

(** The same sum in unbounded integers, used to state what wraps. *)
Definition Zsum (l : list Z) : Z := fold_right Z.add 0 l.

(** ** float64 arithmetic *)

(** The float64 nearest to an integer, ties to even: the cast of an int64
    to float64. *)
Definition float_of_int64 (z : Z) : float :=
  SF2Prim (binary_normalize prec emax z 0 false).

(** [a / b] on two int64 columns, elementwise: both sides are cast to
    float64 and divided; a zero divisor gives an infinity or NaN. *)
Definition true_divide (a b : Z) : float :=
  PrimFloat.div (float_of_int64 a) (float_of_int64 b).

(** The sum of a float64 column.  numpy adds in an order of its own; every
    order gives this value while the partial sums stay within 2^53. *)
Definition float64_sum (l : list float) : float :=
  fold_left PrimFloat.add l 0%float.

(** [Series.mean()] of an int64 column: the float64 sum over the count,
    NaN for an empty column. *)
Definition mean (l : list Z) : float :=
  PrimFloat.div (float64_sum (map float_of_int64 l))
                (float_of_int64 (Z.of_nat (List.length l))).

(** The integer a float64 holds, when it holds one. *)
Definition float_to_Z (f : float) : option Z :=
  match Prim2SF f with
  | S754_zero _ => Some 0
  | S754_finite s m e =>
      if 0 <=? e
      then Some ((if s then -1 else 1) * Z.pos m * 2 ^ e)
      else None
  | _ => None
  end.

(** ** The tables *)

Record SalesRecord := mkSales {
  s_order_id : option Z;
  s_customer_id : option Z;
  s_product_name : option string;
  s_quantity : Z;
  s_price : Z;
  s_order_date : option string;
  s_region : option string
}.

Record CustomerRecord := mkCustomer {
  c_customer_id : option Z;
  c_customer_name : option string
}.

Record Timestamp := mkTimestamp { ts_year : Z; ts_month : Z; ts_day : Z }.

(** A monthly period, [Period(freq="M")]. *)
Record Period := mkPeriod { p_year : Z; p_month : Z }.

(** A sales row after the three column assignments of [preprocess_data]. *)
Record PreparedSale := mkPrepared {
  sale : SalesRecord;
  ps_order_date : option Timestamp;
  ps_revenue : Z;
  ps_month : option Period
}.

(** A row of the merged frame [df]. *)
Record EnrichedSalesRecord := mkEnriched {
  order_id : option Z;
  customer_id : option Z;
  product_name : option string;
  quantity : Z;
  price : Z;
  order_date : option Timestamp;
  region : option string;
  revenue : Z;
  month : option Period;
  customer_name : option string
}.

Definition DataFrame := list EnrichedSalesRecord.

(** ** Index labels *)

(** What [groupby] needs of a key column: equality of labels, and the
    order in which the group labels are sorted. *)
Class Label (K : Type) := {
  label_eqb : K -> K -> bool;
  label_leb : K -> K -> bool
}.

Class LabelOk (K : Type) `{Label K} := {
  label_eqb_spec : forall a b : K, reflect (a = b) (label_eqb a b)
}.

(** A key column whose labels are totally ordered by [label_leb]. *)
Class LabelOrder (K : Type) `{Label K} := {
  label_leb_total :
    forall a b : K, label_leb a b = true \/ label_leb b a = true;
  label_leb_trans : forall a b c : K,
    label_leb a b = true -> label_leb b c = true -> label_leb a c = true;
  label_leb_antisym : forall a b : K,
    label_leb a b = true -> label_leb b a = true -> a = b
}.

#[export] Instance Label_Z : Label Z :=
  {| label_eqb := Z.eqb; label_leb := Z.leb |}.

#[export] Instance Label_string : Label string :=
  {| label_eqb := String.eqb; label_leb := String.leb |}.

Definition Period_eqb (p q : Period) : bool :=
  (p_year p =? p_year q) && (p_month p =? p_month q).

Definition Period_leb (p q : Period) : bool :=
  (p_year p <? p_year q) ||
  ((p_year p =? p_year q) && (p_month p <=? p_month q)).

#[export] Instance Label_Period : Label Period :=
  {| label_eqb := Period_eqb; label_leb := Period_leb |}.

(** A Series: index labels with their values, in index order. *)
Definition Series (K : Type) : Type := list (K * Z).

(** ** Building blocks of pandas *)

(** [notna]: the cell holds a value. *)
Definition notna {A} (cell : option A) : bool :=
  match cell with
  | Some _ => true
  | None => false
  end.

(** [dropna]: the values of a column, missing cells left out. *)
Definition dropna {A} (column : list (option A)) : list A :=
  flat_map (fun cell => match cell with Some v => [v] | None => [] end) column.

(** The cell holds the label [k]. *)
Definition key_is {K} `{Label K} (k : K) (cell : option K) : bool :=
  match cell with
  | Some k' => label_eqb k' k
  | None => false
  end.

(** Equality of two key cells in [merge]: two missing keys match. *)
Definition key_eqb {K} `{Label K} (a b : option K) : bool :=
  match a, b with
  | Some x, Some y => label_eqb x y
  | None, None => true
  | _, _ => false
  end.

(** [pd.unique]: the distinct values in order of first appearance. *)
Fixpoint unique {K} `{Label K} (l : list K) : list K :=
  match l with
  | [] => []
  | x :: t => x :: filter (fun y => negb (label_eqb x y)) (unique t)
  end.

(** [Series.nunique()]: the number of distinct values, missing cells not
    counted. *)
Definition nunique {K} `{Label K} (column : list (option K)) : Z :=
  Z.of_nat (List.length (unique (dropna column))).

Fixpoint insert_by {A} (leb : A -> A -> bool) (x : A) (l : list A) : list A :=
  match l with
  | [] => [x]
  | y :: t => if leb x y then x :: l else y :: insert_by leb x t
  end.

(** A stable ascending sort. *)
Definition sort_by {A} (leb : A -> A -> bool) (l : list A) : list A :=
  fold_right (insert_by leb) [] l.

Section GroupBy.
Context {R K : Type} `{Label K}.
Variable by_ : R -> option K.

(** The group labels of [df.groupby(by)]: distinct and sorted; a row whose
    key is missing belongs to no group. *)
Definition group_keys (df : list R) : list K :=
  sort_by label_leb (unique (dropna (map by_ df))).

Definition get_group (k : K) (df : list R) : list R :=
  filter (fun r => key_is k (by_ r)) df.

(** [df.groupby(by)[col].sum()]. *)
Definition groupby_sum (col : R -> Z) (df : list R) : Series K :=
  map (fun k => (k, int64_sum (map col (get_group k df)))) (group_keys df).
End GroupBy.

(** [Series.sort_values(ascending=False)]. *)
Definition sort_values_desc {K} (s : Series K) : Series K :=
  rev (sort_by (fun a b => snd a <=? snd b) (rev s)).

Definition head {A} (n : nat) (l : list A) : list A := firstn n l.

(** Label lookup, [s.loc[k]]. *)
Fixpoint loc {K V} `{Label K} (k : K) (s : list (K * V)) : option V :=
  match s with
  | [] => None
  | (k', v) :: t => if label_eqb k' k then Some v else loc k t
  end.

(** ** The pipeline *)

(** [Series.dt.to_period("M")]: the calendar month of a date. *)
Definition to_period_M (t : Timestamp) : Period :=
  {| p_year := ts_year t; p_month := ts_month t |}.

Section Preprocess.
(** [pd.to_datetime] on one cell of a column: the column is given too, since
    pandas reads every cell in the format it infers from the column; it
    raises on a string it cannot read. *)
Variable to_datetime : list (option string) -> string -> Result Timestamp.

(** A missing cell becomes NaT without error. *)
Definition read_date (column : list (option string)) (cell : option string)
  : Result (option Timestamp) :=
  match cell with
  | None => ret None
  | Some s => d <- to_datetime column s ;; ret (Some d)
  end.

Definition prepare (column : list (option string)) (s : SalesRecord)
  : Result PreparedSale :=
  d <- read_date column (s_order_date s) ;;
  ret {| sale := s;
         ps_order_date := d;
         ps_revenue := int64_mul (s_quantity s) (s_price s);
         ps_month := option_map to_period_M d |}.

Definition merge_row (s : PreparedSale) (c : CustomerRecord)
  : EnrichedSalesRecord :=
  {| order_id := s_order_id (sale s);
     customer_id := s_customer_id (sale s);
     product_name := s_product_name (sale s);
     quantity := s_quantity (sale s);
     price := s_price (sale s);
     order_date := ps_order_date s;
     region := s_region (sale s);
     revenue := ps_revenue s;
     month := ps_month s;
     customer_name := c_customer_name c |}.

(** [pd.merge(sales, customers, on="customer_id", how="inner")]: every
    pair of a sales row and a customer row with the same key.  The rows are
    listed in the order of the sales rows; the views computed from the frame
    sum, count and sort, and do not depend on that order. *)
Definition merge_inner (sales : list PreparedSale)
    (customers : list CustomerRecord) : DataFrame :=
  flat_map
    (fun s =>
       map (merge_row s)
           (filter (fun c => key_eqb (c_customer_id c) (s_customer_id (sale s)))
                   customers))
    sales.

Definition preprocess_data (sales : list SalesRecord)
    (customers : list CustomerRecord) : Result DataFrame :=
  prepared <- mapM (prepare (map s_order_date sales)) sales ;;
  ret (merge_inner prepared customers).
End Preprocess.

Record ClvRow := mkClv {
  total_spent : Z;
  total_orders : Z;
  avg_order_value : float
}.

(** The [agg] step of [clv]: two named aggregations per customer_id. *)
Definition clv_agg (df : DataFrame) : list (Z * (Z * Z)) :=
  map (fun c =>
         let g := get_group customer_id c df in
         (c, (int64_sum (map revenue g), nunique (map order_id g))))
      (group_keys customer_id df).

Definition customer_analysis (df : DataFrame)
  : Series string * list (Z * ClvRow) :=
  let customer_revenue :=
    sort_values_desc (groupby_sum customer_name revenue df) in
  let clv :=
    map (fun '(c, (spent, orders)) =>
           (c, {| total_spent := spent;
                  total_orders := orders;
                  avg_order_value := true_divide spent orders |}))
        (clv_agg df) in
  (customer_revenue, clv).

Definition sales_analysis (df : DataFrame)
  : list (Period * Z) * Series string * Series string :=
  let monthly_sales := groupby_sum month revenue df in
  let top_products :=
    head 10 (sort_values_desc (groupby_sum product_name revenue df)) in
  let region_sales :=
    sort_values_desc (groupby_sum region revenue df) in
  (monthly_sales, top_products, region_sales).

(** A number as pandas stores it. *)
Inductive Number :=
| Int64 (z : Z)
| Float64 (f : float).

(** The pivot table: one row per region, one column per product_name, both
    sorted; a cell is [None] (NaN) when no row of [df] has that pair. *)
Definition PivotTable := list (string * list (string * option Number)).

(** The rows [pivot_table] groups: those with a region and a product_name. *)
Definition pivot_frame (df : DataFrame) : DataFrame :=
  filter (fun x => notna (region x) && notna (product_name x)) df.

(** The sum of one (region, product_name) group, if there is such a group. *)
Definition pivot_sum (df : DataFrame) (r p : string) : option Z :=
  match filter (fun x => key_is p (product_name x))
               (get_group region r df) with
  | [] => None
  | g => Some (int64_sum (map revenue g))
  end.

(** Some pair of a row label and a column label has no group. *)
Definition pivot_has_hole (df : DataFrame) : bool :=
  existsb
    (fun r =>
       existsb (fun p => negb (notna (pivot_sum df r p)))
               (group_keys product_name (pivot_frame df)))
    (group_keys region (pivot_frame df)).

(** Unstacking keeps the int64 sums when every cell is filled, and turns
    the whole table into float64 when some cell is empty. *)
Definition stored (hole : bool) (z : Z) : Number :=
  if hole then Float64 (float_of_int64 z) else Int64 z.

Definition pivot_cell (df : DataFrame) (r p : string) : option Number :=
  option_map (stored (pivot_has_hole df)) (pivot_sum df r p).

Definition pivot_analysis (df : DataFrame) : PivotTable :=
  map (fun r =>
         (r, map (fun p => (p, pivot_cell df r p))
                 (group_keys product_name (pivot_frame df))))
      (group_keys region (pivot_frame df)).

(** [pivot.loc[r, p]]: [None] when a label is missing from the table,
    [Some None] for an empty cell. *)
Definition pivot_loc (pt : PivotTable) (r p : string)
  : option (option Number) :=
  match loc r pt with
  | None => None
  | Some row => loc p row
  end.

(** What [print_summary] prints. *)
Record Summary := mkSummary {
  total_revenue : Z;
  total_customers : Z;
  mean_order_value : float;
  top_customer : string;
  top_customer_value : Z
}.

Definition IndexError : Exception :=
  {| exc_type := "IndexError";
     exc_msg := "index 0 is out of bounds for axis 0 with size 0" |}.

(** [s.index[0]] and [s.iloc[0]]. *)
Definition first {A} (l : list A) : Result A :=
  match l with
  | [] => raise IndexError
  | x :: _ => ret x
  end.

Definition print_summary (df : DataFrame) (customer_revenue : Series string)
  : Result Summary :=
  let total_revenue := int64_sum (map revenue df) in
  let total_customers := nunique (map customer_id df) in
  let avg_order_value := mean (map snd (groupby_sum order_id revenue df)) in
  top_customer <- first (map fst customer_revenue) ;;
  top_customer_value <- first (map snd customer_revenue) ;;
  ret {| total_revenue := total_revenue;
         total_customers := total_customers;
         mean_order_value := avg_order_value;
         top_customer := top_customer;
         top_customer_value := top_customer_value |}.

(** Everything [main] computes from the two loaded tables.  [load_data] is
    replaced by the two tables themselves, and [create_visualizations],
    which only draws from its arguments, is passed over. *)
Record Report := mkReport {
  r_customer_revenue : Series string;
  r_clv : list (Z * ClvRow);
  r_monthly_sales : list (Period * Z);
  r_top_products : Series string;
  r_region_sales : Series string;
  r_pivot_table : PivotTable;
  r_summary : Summary
}.

Definition main
    (to_datetime : list (option string) -> string -> Result Timestamp)
    (sales : list SalesRecord) (customers : list CustomerRecord)
  : Result Report :=
  df <- preprocess_data to_datetime sales customers ;;
  let '(customer_revenue, clv) := customer_analysis df in
  let '(monthly_sales, top_products, region_sales) := sales_analysis df in
  let pivot_table := pivot_analysis df in
  summary <- print_summary df customer_revenue ;;
  ret {| r_customer_revenue := customer_revenue;
         r_clv := clv;
         r_monthly_sales := monthly_sales;
         r_top_products := top_products;
         r_region_sales := region_sales;
         r_pivot_table := pivot_table;
         r_summary := summary |}.

(** ** Calendar dates in ISO form *)

Definition digit (c : ascii) : option Z :=
  let n := Z.of_N (N_of_ascii c) in
  if (48 <=? n) && (n <=? 57) then Some (n - 48) else None.

Fixpoint number (acc : Z) (cs : list ascii) : option Z :=
  match cs with
  | [] => Some acc
  | c :: t =>
      match digit c with
      | Some d => number (10 * acc + d) t
      | None => None
      end
  end.

Definition is_leap (y : Z) : bool :=
  ((y mod 4 =? 0) && negb (y mod 100 =? 0)) || (y mod 400 =? 0).

Definition days_in_month (y m : Z) : Z :=
  if m =? 2 then (if is_leap y then 29 else 28)
  else if (m =? 4) || (m =? 6) || (m =? 9) || (m =? 11) then 30
  else 31.

Definition ValueError (s : string) : Exception :=
  {| exc_type := "ValueError"; exc_msg := s |}.

(** [pd.to_datetime] restricted to columns in the form YYYY-MM-DD, the form
    of the dates in the sales table; any other string is rejected here. *)
Definition iso_to_datetime (column : list (option string)) (s : string)
  : Result Timestamp :=
  match list_ascii_of_string s with
  | [y1; y2; y3; y4; "-"%char; m1; m2; "-"%char; d1; d2] =>
      match number 0 [y1; y2; y3; y4], number 0 [m1; m2], number 0 [d1; d2] with
      | Some y, Some m, Some d =>
          if (1 <=? m) && (m <=? 12) && (1 <=? d) && (d <=? days_in_month y m)
          then ret {| ts_year := y; ts_month := m; ts_day := d |}
          else raise (ValueError s)
      | _, _, _ => raise (ValueError s)
      end
  | _ => raise (ValueError s)
  end.

Definition digit_char (d : Z) : ascii := ascii_of_N (Z.to_N (48 + d mod 10)).

(** [str(period)] for a monthly period: YYYY-MM. *)
Definition Period_str (p : Period) : string :=
  string_of_list_ascii
    [digit_char (p_year p / 1000); digit_char (p_year p / 100);
     digit_char (p_year p / 10); digit_char (p_year p); "-"%char;
     digit_char (p_month p / 10); digit_char (p_month p)].

(** ** Example tables *)

(** A sales row and a customer row with every cell present. *)
Definition sold (oid cid : Z) (product : string) (qty unit_price : Z)
    (date region_name : string) : SalesRecord :=
  mkSales (Some oid) (Some cid) (Some product) qty unit_price (Some date)
          (Some region_name).

Definition customer (cid : Z) (name : string) : CustomerRecord :=
  mkCustomer (Some cid) (Some name).

(** A row of the frame with every cell present, revenue and month derived
    as [preprocess_data] derives them. *)
Definition joined (oid cid : Z) (product : string) (qty unit_price : Z)
    (date : Timestamp) (region_name name : string) : EnrichedSalesRecord :=
  mkEnriched (Some oid) (Some cid) (Some product) qty unit_price (Some date)
             (Some region_name) (int64_mul qty unit_price)
             (Some (to_period_M date)) (Some name).

(** The tables of the worked example. *)
Definition example_sales : list SalesRecord :=
  [ sold 1 1 "Widget" 2 10 "2024-01-05" "West";
    sold 2 1 "Widget" 1 10 "2024-02-10" "West" ].

Definition example_customers : list CustomerRecord :=
  [ customer 1 "Alice" ].

(** The frame that [preprocess_data] builds from the worked example. *)
Definition example_df : DataFrame :=
  [ joined 1 1 "Widget" 2 10 (mkTimestamp 2024 1 5) "West" "Alice";
    joined 2 1 "Widget" 1 10 (mkTimestamp 2024 2 10) "West" "Alice" ].

(** A frame with two regions and two products that never meet crosswise. *)
Definition two_region_df : DataFrame :=
  [ joined 1 1 "Widget" 2 10 (mkTimestamp 2024 1 5) "West" "Alice";
    joined 2 2 "Gadget" 3 5 (mkTimestamp 2024 1 9) "East" "Bob" ].

(** A frame in which every region sells every product. *)
Definition full_grid_df : DataFrame :=
  [ joined 1 1 "Widget" 2 10 (mkTimestamp 2024 1 5) "West" "Alice";
    joined 2 1 "Gadget" 1 7 (mkTimestamp 2024 1 6) "West" "Alice";
    joined 3 2 "Widget" 3 10 (mkTimestamp 2024 2 9) "East" "Bob";
    joined 4 2 "Gadget" 2 7 (mkTimestamp 2024 2 9) "East" "Bob" ].

(** A frame of eleven products with revenues 1 to 11. *)
Definition eleven_products_df : DataFrame :=
  map (fun '(i, name) =>
         joined i 1 name 1 i (mkTimestamp 2024 1 5) "West" "Alice")
      [(1, "P01"%string); (2, "P02"%string); (3, "P03"%string);
       (4, "P04"%string); (5, "P05"%string); (6, "P06"%string);
       (7, "P07"%string); (8, "P08"%string); (9, "P09"%string);
       (10, "P10"%string); (11, "P11"%string)].

(** The worked example's first row with its customer_name missing, and
    with its order_id missing. *)
Definition nameless_row : EnrichedSalesRecord :=
  mkEnriched (Some 1) (Some 1) (Some "Widget"%string) 2 10
             (Some (mkTimestamp 2024 1 5)) (Some "West"%string) 20
             (Some (mkPeriod 2024 1)) None.


(** Two regions and two products that never meet crosswise, one of the sums
    being 2^53 + 1. *)
Definition large_sum_df : DataFrame :=
  [ joined 1 1 "Gadget" 1 9007199254740993 (mkTimestamp 2024 1 5) "West"
      "Alice";
    joined 2 2 "Widget" 1 1 (mkTimestamp 2024 1 9) "East" "Bob" ].

(** ** Vocabulary of the properties *)

(** Each value is at most the one before it. *)
Definition non_increasing {K} (s : Series K) : Prop :=
  Sorted (fun a b => snd b <= snd a) s.

(** [n] is the number of distinct values occurring in [l]. *)
Definition distinct_count {A} (l : list A) (n : Z) : Prop :=
  exists d, NoDup d /\ (forall x, In x d <-> In x l) /\
            n = Z.of_nat (List.length d).

(** One row of [clv], as the two steps of [customer_analysis] build it. *)
Definition clv_row (df : DataFrame) (c : Z) : ClvRow :=
  let g := get_group customer_id c df in
  {| total_spent := int64_sum (map revenue g);
     total_orders := nunique (map order_id g);
     avg_order_value :=
       true_divide (int64_sum (map revenue g)) (nunique (map order_id g)) |}.

(** Months in calendar order. *)
Definition Period_lt (p q : Period) : Prop :=
  p_year p < p_year q \/ (p_year p = p_year q /\ p_month p < p_month q).

(** Some row of the frame has region [r] and product_name [p]. *)
Definition pair_present (df : DataFrame) (r p : string) : Prop :=
  exists x, In x df /\ region x = Some r /\ product_name x = Some p.

(** The rows of the frame with region [r] and product_name [p]. *)
Definition pair_rows (df : DataFrame) (r p : string) : DataFrame :=
  filter (fun x => key_is r (region x) && key_is p (product_name x)) df.

(** The sales row has a customer row with its customer_id. *)
Definition has_customer (customers : list CustomerRecord) (s : SalesRecord)
  : bool :=
  existsb (fun c => key_eqb (c_customer_id c) (s_customer_id s)) customers.

(** The integers held by a sequence of cells, other cells left out. *)
Definition cell_values (cells : list (option Number)) : list Z :=
  flat_map (fun c => match c with Some (Int64 v) => [v] | _ => [] end) cells.

(** Labels in strictly ascending order. *)
Definition string_lt (a b : string) : Prop := String.ltb a b = true.

(** Every row of the frame has a value in the key column. *)
Definition all_present {K} (by_ : EnrichedSalesRecord -> option K)
    (df : DataFrame) : Prop :=
  forall r, In r df -> by_ r <> None.

(** * Properties *)

(** ** Labels *)

Lemma Period_eqb_spec (p q : Period) : reflect (p = q) (Period_eqb p q).
Proof.
  destruct p as [y m], q as [y' m']. unfold Period_eqb. simpl.
  destruct (Z.eqb_spec y y') as [->|Hy]; simpl.
  - destruct (Z.eqb_spec m m') as [->|Hm]; constructor; congruence.
  - constructor. congruence.
Qed.

#[export] Instance LabelOk_Z : LabelOk Z.
Proof. constructor. exact Z.eqb_spec. Qed.

#[export] Instance LabelOk_string : LabelOk string.
Proof. constructor. exact String.eqb_spec. Qed.

#[export] Instance LabelOk_Period : LabelOk Period.
Proof. constructor. exact Period_eqb_spec. Qed.

Lemma ascii_compare_eq (a b : ascii) : Ascii.compare a b = Eq -> a = b.
Proof. apply Ascii.compare_eq_iff. Qed.

Lemma ascii_compare_lt_trans (a b c : ascii) :
  Ascii.compare a b = Lt -> Ascii.compare b c = Lt -> Ascii.compare a c = Lt.
Proof.
  unfold Ascii.compare. rewrite !N.compare_lt_iff. apply N.lt_trans.
Qed.

Lemma string_compare_trans (a b c : string) :
  String.compare a b <> Gt -> String.compare b c <> Gt ->
  String.compare a c <> Gt.
Proof.
  revert b c. induction a as [|x a IH]; intros [|y b] [|z c]; simpl;
    try congruence.
  destruct (Ascii.compare x y) eqn:Exy; try congruence.
  - apply ascii_compare_eq in Exy. subst y.
    destruct (Ascii.compare x z); try congruence. apply IH.
  - destruct (Ascii.compare y z) eqn:Eyz; try congruence.
    + apply ascii_compare_eq in Eyz. subst z. rewrite Exy. congruence.
    + rewrite (ascii_compare_lt_trans x y z Exy Eyz). congruence.
Qed.

Lemma string_leb_trans (a b c : string) :
  String.leb a b = true -> String.leb b c = true -> String.leb a c = true.
Proof.
  unfold String.leb. intros Hab Hbc.
  pose proof (string_compare_trans a b c) as Ht.
  destruct (String.compare a b), (String.compare b c), (String.compare a c);
    try reflexivity; try discriminate; exfalso; apply Ht; congruence.
Qed.

Lemma string_leb_lt (a b : string) :
  String.leb a b = true -> a <> b -> string_lt a b.
Proof.
  unfold String.leb, string_lt, String.ltb. intros Hle Hne.
  destruct (String.compare a b) eqn:E; try reflexivity; try discriminate.
  exfalso. apply Hne. now apply String.compare_eq_iff.
Qed.

Lemma Period_leb_total (p q : Period) :
  Period_leb p q = true \/ Period_leb q p = true.
Proof.
  unfold Period_leb.
  rewrite !orb_true_iff, !andb_true_iff, !Z.ltb_lt, !Z.eqb_eq, !Z.leb_le. lia.
Qed.

Lemma Period_leb_trans (p q r : Period) :
  Period_leb p q = true -> Period_leb q r = true -> Period_leb p r = true.
Proof.
  unfold Period_leb.
  rewrite !orb_true_iff, !andb_true_iff, !Z.ltb_lt, !Z.eqb_eq, !Z.leb_le. lia.
Qed.

Lemma Period_leb_antisym (p q : Period) :
  Period_leb p q = true -> Period_leb q p = true -> p = q.
Proof.
  destruct p as [y m], q as [y' m']. unfold Period_leb. simpl.
  rewrite !orb_true_iff, !andb_true_iff, !Z.ltb_lt, !Z.eqb_eq, !Z.leb_le.
  intros H1 H2. assert (y = y' /\ m = m') as [-> ->] by lia. reflexivity.
Qed.

Lemma Period_leb_lt (p q : Period) :
  Period_leb p q = true -> p <> q -> Period_lt p q.
Proof.
  unfold Period_leb, Period_lt. destruct p as [y m], q as [y' m']. simpl.
  rewrite !orb_true_iff, !andb_true_iff, !Z.ltb_lt, !Z.eqb_eq, !Z.leb_le.
  intros Hle Hne.
  assert (~ (y = y' /\ m = m')) by (intros [-> ->]; now apply Hne).
  lia.
Qed.

#[export] Instance LabelOrder_Z : LabelOrder Z.
Proof.
  constructor; simpl; intros; rewrite ?Z.leb_le in *; lia.
Qed.

#[export] Instance LabelOrder_string : LabelOrder string.
Proof.
  constructor; simpl.
  - apply String.leb_total.
  - apply string_leb_trans.
  - apply String.leb_antisym.
Qed.

#[export] Instance LabelOrder_Period : LabelOrder Period.
Proof.
  constructor; simpl.
  - apply Period_leb_total.
  - apply Period_leb_trans.
  - apply Period_leb_antisym.
Qed.

(** ** Sums *)

Lemma int64_wrap_add_l (a b : Z) :
  int64_wrap (int64_wrap a + b) = int64_wrap (a + b).
Proof.
  unfold int64_wrap. f_equal.
  replace ((a + 2 ^ 63) mod 2 ^ 64 - 2 ^ 63 + b + 2 ^ 63)
    with ((a + 2 ^ 63) mod 2 ^ 64 + b) by ring.
  rewrite Zplus_mod_idemp_l. f_equal. ring.
Qed.

Lemma int64_wrap_add_r (a b : Z) :
  int64_wrap (a + int64_wrap b) = int64_wrap (a + b).
Proof.
  rewrite Z.add_comm, int64_wrap_add_l. f_equal. ring.
Qed.

Lemma int64_wrap_idem (a : Z) : int64_wrap (int64_wrap a) = int64_wrap a.
Proof.
  replace (int64_wrap a) with (int64_wrap a + 0) at 1 by ring.
  rewrite int64_wrap_add_l. f_equal. ring.
Qed.

Lemma int64_wrap_range (a : Z) : - 2 ^ 63 <= int64_wrap a < 2 ^ 63.
Proof.
  unfold int64_wrap.
  pose proof (Z.mod_pos_bound (a + 2 ^ 63) (2 ^ 64) ltac:(lia)). lia.
Qed.

Lemma int64_wrap_small (a : Z) :
  - 2 ^ 63 <= a < 2 ^ 63 -> int64_wrap a = a.
Proof.
  intros Ha. unfold int64_wrap. rewrite Z.mod_small; lia.
Qed.

Lemma fold_int64_add (l : list Z) (a : Z) :
  fold_left int64_add l (int64_wrap a) = int64_wrap (a + Zsum l).
Proof.
  revert a. induction l as [|x l IH]; intros a; simpl.
  - f_equal. ring.
  - unfold int64_add at 2. rewrite int64_wrap_add_l, IH. f_equal. ring.
Qed.

(** The int64 sum is the exact sum, wrapped once. *)
Lemma int64_sum_Zsum (l : list Z) : int64_sum l = int64_wrap (Zsum l).
Proof.
  unfold int64_sum. change 0 with (int64_wrap 0) at 1.
  now rewrite fold_int64_add.
Qed.

(** Without overflow the int64 sum is the exact sum. *)
Lemma int64_sum_exact (l : list Z) :
  - 2 ^ 63 <= Zsum l < 2 ^ 63 -> int64_sum l = Zsum l.
Proof.
  intros Hr. rewrite int64_sum_Zsum. now apply int64_wrap_small.
Qed.

Lemma Zsum_app (l1 l2 : list Z) : Zsum (l1 ++ l2) = Zsum l1 + Zsum l2.
Proof. induction l1; simpl; lia. Qed.

Lemma Zsum_Permutation (l1 l2 : list Z) :
  Permutation l1 l2 -> Zsum l1 = Zsum l2.
Proof. induction 1; simpl; lia. Qed.

Lemma int64_sum_Permutation (l1 l2 : list Z) :
  Permutation l1 l2 -> int64_sum l1 = int64_sum l2.
Proof.
  intros HP. rewrite !int64_sum_Zsum. f_equal. now apply Zsum_Permutation.
Qed.

(** Wrapping each summand does not change the wrapped total. *)
Lemma int64_wrap_Zsum_map {A} (f : A -> Z) (l : list A) :
  int64_wrap (Zsum (map (fun a => int64_wrap (f a)) l)) =
  int64_wrap (Zsum (map f l)).
Proof.
  induction l as [|x l IH]; simpl; [reflexivity|].
  rewrite int64_wrap_add_l.
  rewrite <- int64_wrap_add_r, IH, int64_wrap_add_r. reflexivity.
Qed.

Lemma Zsum_map_add {A} (f g : A -> Z) (l : list A) :
  Zsum (map (fun a => f a + g a) l) = Zsum (map f l) + Zsum (map g l).
Proof. induction l; simpl; lia. Qed.

(** float64 addition is not associative: 0.1, 0.2 and 0.3 add up to
    different numbers in different groupings.  This is why the conservation
    properties below are stated for int64 revenue only. *)
Lemma float64_add_not_associative :
  float64_sum [float64_sum [0x1.999999999999ap-4; 0x1.999999999999ap-3];
               0x1.3333333333333p-2]%float <>
  float64_sum [0x1.999999999999ap-4;
               float64_sum [0x1.999999999999ap-3; 0x1.3333333333333p-2]]%float.
Proof. vm_compute. discriminate. Qed.

(** ** Missing cells *)

Lemma in_dropna {A} (column : list (option A)) (v : A) :
  In v (dropna column) <-> In (Some v) column.
Proof.
  unfold dropna. rewrite in_flat_map. split.
  - intros ([w|] & Hin & Hv); simpl in Hv; [|contradiction].
    destruct Hv as [->|[]]. exact Hin.
  - intros Hin. exists (Some v). split; [exact Hin|now left].
Qed.

Lemma notna_true {A} (cell : option A) : notna cell = true <-> cell <> None.
Proof. destruct cell; simpl; split; congruence. Qed.

Lemma filter_all {A} (f : A -> bool) (l : list A) :
  (forall x, In x l -> f x = true) -> filter f l = l.
Proof.
  induction l as [|x l IH]; simpl; intros Hall; [reflexivity|].
  rewrite (Hall x) by now left. f_equal. apply IH. intros; apply Hall.
  now right.
Qed.

Lemma filter_twice {A} (f g : A -> bool) (l : list A) :
  filter f (filter g l) = filter (fun x => g x && f x) l.
Proof.
  induction l as [|x l IH]; simpl; [reflexivity|].
  destruct (g x); simpl; [destruct (f x)|]; now rewrite IH.
Qed.

Lemma filter_Permutation {A} (f : A -> bool) (l1 l2 : list A) :
  Permutation l1 l2 -> Permutation (filter f l1) (filter f l2).
Proof.
  induction 1 as [|x l1 l2 HP IH|x y l|l1 l2 l3 H1 IH1 H2 IH2]; simpl.
  - constructor.
  - destruct (f x); [now constructor|assumption].
  - destruct (f x), (f y); try reflexivity. apply perm_swap.
  - now transitivity (filter f l2).
Qed.

Lemma dropna_Permutation {A} (l1 l2 : list (option A)) :
  Permutation l1 l2 -> Permutation (dropna l1) (dropna l2).
Proof.
  induction 1 as [|x l1 l2 HP IH|x y l|l1 l2 l3 H1 IH1 H2 IH2]; simpl.
  - constructor.
  - now apply Permutation_app_head.
  - destruct x, y; simpl; try reflexivity. apply perm_swap.
  - now transitivity (dropna l2).
Qed.

Lemma length_dropna_le {A} (column : list (option A)) :
  (List.length (dropna column) <= List.length column)%nat.
Proof.
  induction column as [|[v|] l IH]; simpl; lia.
Qed.

(** ** Distinct values and sorting *)

Section UniqueFacts.
Context {K : Type} `{LabelOk K}.

Lemma label_eqb_refl (k : K) : label_eqb k k = true.
Proof. destruct (label_eqb_spec k k); congruence. Qed.

Lemma label_eqb_eq (a b : K) : label_eqb a b = true <-> a = b.
Proof. destruct (label_eqb_spec a b); split; congruence. Qed.

Lemma label_eqb_neq (a b : K) : label_eqb a b = false <-> a <> b.
Proof. destruct (label_eqb_spec a b); split; congruence. Qed.

Lemma key_is_true (k : K) (cell : option K) :
  key_is k cell = true <-> cell = Some k.
Proof.
  destruct cell as [k'|]; simpl; [|split; discriminate].
  rewrite label_eqb_eq. split; congruence.
Qed.

Lemma key_eqb_true (a b : option K) : key_eqb a b = true <-> a = b.
Proof.
  destruct a, b; simpl; rewrite ?label_eqb_eq; split; congruence.
Qed.

Lemma in_unique (l : list K) (k : K) : In k (unique l) <-> In k l.
Proof.
  induction l as [|x l IH]; simpl; [tauto|].
  rewrite filter_In, IH, negb_true_iff, label_eqb_neq.
  destruct (label_eqb_spec x k); tauto.
Qed.

Lemma NoDup_unique (l : list K) : NoDup (unique l).
Proof.
  induction l as [|x l IH]; simpl; constructor.
  - rewrite filter_In, label_eqb_refl. simpl. intros [_ ?]. discriminate.
  - now apply NoDup_filter.
Qed.

(** A label in a duplicate-free list is hit exactly once. *)
Lemma Zsum_indicator (k0 : K) (v : Z) (ks : list K) :
  NoDup ks -> In k0 ks ->
  Zsum (map (fun k => if label_eqb k0 k then v else 0) ks) = v.
Proof.
  induction 1 as [|k ks Hk Hnd IH]; simpl; [tauto|].
  intros [<-|Hin].
  - rewrite label_eqb_refl.
    assert (Hz : Zsum (map (fun k0 => if label_eqb k k0 then v else 0) ks) = 0).
    { clear IH Hnd. induction ks as [|y ks IHks]; simpl; [reflexivity|].
      destruct (label_eqb_spec k y) as [->|_].
      - exfalso. apply Hk. now left.
      - rewrite IHks; [reflexivity|]. intros Hc. apply Hk. now right. }
    lia.
  - destruct (label_eqb_spec k0 k) as [->|_]; [contradiction|].
    rewrite IH by assumption. lia.
Qed.
End UniqueFacts.

Lemma length_unique_le {K} `{Label K} (l : list K) :
  (List.length (unique l) <= List.length l)%nat.
Proof.
  induction l as [|x l IH]; simpl; [lia|].
  pose proof (filter_length_le (fun y => negb (label_eqb x y)) (unique l)).
  lia.
Qed.

Section SortFacts.
Context {A : Type}.
Variable leb : A -> A -> bool.

Lemma insert_by_Permutation (x : A) (l : list A) :
  Permutation (insert_by leb x l) (x :: l).
Proof.
  induction l as [|y l IH]; simpl; [reflexivity|].
  destruct (leb x y); [reflexivity|].
  rewrite IH. apply perm_swap.
Qed.

Lemma sort_by_Permutation (l : list A) : Permutation (sort_by leb l) l.
Proof.
  induction l as [|x l IH]; simpl; [reflexivity|].
  rewrite insert_by_Permutation. now constructor.
Qed.

Hypothesis leb_total : forall a b, leb a b = true \/ leb b a = true.
Hypothesis leb_trans :
  forall a b c, leb a b = true -> leb b c = true -> leb a c = true.

Lemma insert_by_sorted (x : A) (l : list A) :
  StronglySorted (fun a b => leb a b = true) l ->
  StronglySorted (fun a b => leb a b = true) (insert_by leb x l).
Proof.
  induction 1 as [|y l Hs IH Hall]; simpl.
  - repeat constructor.
  - destruct (leb x y) eqn:E.
    + constructor; [now constructor|].
      constructor; [assumption|].
      eapply Forall_impl; [|exact Hall].
      intros z Hz. eapply leb_trans; eassumption.
    + constructor; [assumption|].
      assert (Hyx : leb y x = true) by (destruct (leb_total x y); congruence).
      eapply Permutation_Forall;
        [symmetry; apply insert_by_Permutation|].
      now constructor.
Qed.

Lemma sort_by_sorted (l : list A) :
  StronglySorted (fun a b => leb a b = true) (sort_by leb l).
Proof.
  induction l as [|x l IH]; simpl; [constructor|].
  now apply insert_by_sorted.
Qed.
End SortFacts.

Lemma StronglySorted_rev {A} (R : A -> A -> Prop) (l : list A) :
  StronglySorted R l -> StronglySorted (fun a b => R b a) (rev l).
Proof.
  induction 1 as [|x l Hs IH Hall]; simpl; [constructor|].
  assert (G : forall l1 : list A,
             StronglySorted (fun a b => R b a) l1 ->
             Forall (fun y => R x y) l1 ->
             StronglySorted (fun a b => R b a) (l1 ++ [x])).
  { induction 1 as [|y l1 Hs1 IH1 Hall1]; simpl; intros HF.
    - repeat constructor.
    - inversion HF; subst. constructor; [now apply IH1|].
      apply Forall_app. split; [assumption|]. now constructor. }
  apply G; [assumption|]. now apply Forall_rev.
Qed.

Lemma StronglySorted_weaken {A} (R1 R2 : A -> A -> Prop) (l : list A) :
  (forall a b, R1 a b -> R2 a b) ->
  StronglySorted R1 l -> StronglySorted R2 l.
Proof.
  intros Himp. induction 1 as [|x l Hs IH Hall]; constructor; [assumption|].
  eapply Forall_impl; [|exact Hall]. intros y. apply Himp.
Qed.

Lemma StronglySorted_NoDup_strict {A} (R : A -> A -> Prop) (l : list A) :
  StronglySorted R l -> NoDup l ->
  StronglySorted (fun a b => R a b /\ a <> b) l.
Proof.
  induction 1 as [|x l Hs IH Hall]; intros Hnd; constructor;
    inversion Hnd; subst.
  - now apply IH.
  - rewrite Forall_forall in *. intros y Hy. split; [now apply Hall|].
    intros ->. contradiction.
Qed.

Lemma StronglySorted_app_cross {A} (R : A -> A -> Prop) (l1 l2 : list A) :
  StronglySorted R (l1 ++ l2) ->
  forall a b, In a l1 -> In b l2 -> R a b.
Proof.
  induction l1 as [|x l1 IH]; simpl; intros Hs a b Ha Hb; [contradiction|].
  inversion Hs as [|? ? Hs' Hall]; subst. destruct Ha as [->|Ha].
  - rewrite Forall_forall in Hall. apply Hall, in_or_app. now right.
  - now apply IH.
Qed.

(** Two sorted lists with the same elements are the same list. *)
Lemma sorted_Permutation_eq {A} (R : A -> A -> Prop) (l1 l2 : list A) :
  (forall a b, R a b -> R b a -> a = b) ->
  StronglySorted R l1 -> StronglySorted R l2 -> Permutation l1 l2 ->
  l1 = l2.
Proof.
  intros Hanti Hs1. revert l2.
  induction Hs1 as [|x l1 Hs1 IH Hall1]; intros l2 Hs2 HP.
  - apply Permutation_nil in HP. now subst.
  - destruct Hs2 as [|y l2 Hs2 Hall2].
    + symmetry in HP. apply Permutation_nil in HP. discriminate.
    + assert (Hxy : x = y).
      { assert (Hx : In x (y :: l2))
          by (eapply Permutation_in; [exact HP|now left]).
        assert (Hy : In y (x :: l1))
          by (eapply Permutation_in; [symmetry; exact HP|now left]).
        rewrite Forall_forall in Hall1, Hall2.
        destruct Hx as [->|Hx]; [reflexivity|].
        destruct Hy as [->|Hy]; [reflexivity|].
        apply Hanti; [now apply Hall1|now apply Hall2]. }
      subst y. f_equal. apply IH; [assumption|].
      now apply Permutation_cons_inv in HP.
Qed.

Lemma NoDup_same_length {A} (l1 l2 : list A) :
  NoDup l1 -> NoDup l2 -> (forall x, In x l1 <-> In x l2) ->
  List.length l1 = List.length l2.
Proof.
  intros H1 H2 Hiff. apply Permutation_length.
  now apply NoDup_Permutation.
Qed.

(** ** Grouping *)

Section GroupByFacts.
Context {R K : Type} `{LabelOk K}.
Variable by_ : R -> option K.

Lemma in_group_keys (df : list R) (k : K) :
  In k (group_keys by_ df) <-> In (Some k) (map by_ df).
Proof.
  unfold group_keys. rewrite <- in_dropna, <- (in_unique (dropna (map by_ df))).
  split; intros Hin.
  - eapply Permutation_in; [apply sort_by_Permutation|exact Hin].
  - eapply Permutation_in; [symmetry; apply sort_by_Permutation|exact Hin].
Qed.

Lemma NoDup_group_keys (df : list R) : NoDup (group_keys by_ df).
Proof.
  unfold group_keys.
  eapply Permutation_NoDup; [symmetry; apply sort_by_Permutation|].
  apply NoDup_unique.
Qed.

Lemma in_get_group (df : list R) (k : K) (r : R) :
  In r (get_group by_ k df) <-> In r df /\ by_ r = Some k.
Proof. unfold get_group. now rewrite filter_In, key_is_true. Qed.

Lemma get_group_nonempty (df : list R) (k : K) :
  In (Some k) (map by_ df) -> get_group by_ k df <> [].
Proof.
  rewrite in_map_iff. intros (r & Hk & Hr) E.
  assert (Hin : In r (get_group by_ k df)) by now apply in_get_group.
  rewrite E in Hin. exact Hin.
Qed.

(** The groups partition the rows that have a key: summing group by group,
    over any duplicate-free list of labels that covers the frame, gives the
    sum of the column over those rows. *)
Lemma Zsum_groups (col : R -> Z) (ks : list K) (df : list R) :
  NoDup ks -> (forall r k, In r df -> by_ r = Some k -> In k ks) ->
  Zsum (map (fun k => Zsum (map col (get_group by_ k df))) ks) =
  Zsum (map col (filter (fun r => notna (by_ r)) df)).
Proof.
  intros Hnd. induction df as [|r df IH]; intros Hcov.
  - simpl. induction ks; simpl; [reflexivity|].
    inversion Hnd; subst. now rewrite IHks.
  - assert (IH' := IH (fun r' k Hr' => Hcov r' k (or_intror Hr'))).
    unfold get_group in *. simpl. destruct (by_ r) as [k0|] eqn:Ek0; simpl.
    + rewrite <- IH'.
      assert (Hr : Zsum (map (fun k => if label_eqb k0 k then col r else 0)
                             ks) = col r)
        by (apply Zsum_indicator; [assumption|apply (Hcov r); auto; now left]).
      rewrite <- Hr at 1. rewrite <- Zsum_map_add.
      f_equal. apply map_ext. intros k.
      destruct (label_eqb k0 k); simpl; lia.
    + exact IH'.
Qed.

Lemma groupby_sum_keys (col : R -> Z) (df : list R) :
  map fst (groupby_sum by_ col df) = group_keys by_ df.
Proof.
  unfold groupby_sum. rewrite map_map. simpl. apply map_id.
Qed.

Lemma in_groupby_sum (col : R -> Z) (df : list R) (k : K) (v : Z) :
  In (k, v) (groupby_sum by_ col df) <->
  In (Some k) (map by_ df) /\ v = int64_sum (map col (get_group by_ k df)).
Proof.
  unfold groupby_sum. rewrite in_map_iff, <- in_group_keys. split.
  - intros (k' & E & Hin). inversion E; subst. auto.
  - intros [Hin ->]. exists k. auto.
Qed.

(** Summing a column group by group gives the total of the rows that have a
    key: a row whose key is missing is counted in no group. *)
Lemma groupby_sum_total (col : R -> Z) (df : list R) :
  int64_sum (map snd (groupby_sum by_ col df)) =
  int64_sum (map col (filter (fun r => notna (by_ r)) df)).
Proof.
  unfold groupby_sum. rewrite map_map. simpl.
  rewrite !int64_sum_Zsum.
  rewrite (map_ext _
             (fun k => int64_wrap (Zsum (map col (get_group by_ k df)))))
    by (intros; apply int64_sum_Zsum).
  rewrite int64_wrap_Zsum_map. f_equal.
  apply Zsum_groups; [apply NoDup_group_keys|].
  intros r k Hr Hk. apply in_group_keys. rewrite <- Hk. now apply in_map.
Qed.

(** With a key in every row the group sums conserve the column total. *)
Lemma groupby_sum_total_present (col : R -> Z) (df : list R) :
  (forall r, In r df -> by_ r <> None) ->
  int64_sum (map snd (groupby_sum by_ col df)) = int64_sum (map col df).
Proof.
  intros Hall. rewrite groupby_sum_total, filter_all; [reflexivity|].
  intros r Hr. apply notna_true. now apply Hall.
Qed.

Lemma loc_map_key {V} (f : K -> V) (ks : list K) (k : K) :
  In k ks -> loc k (map (fun x => (x, f x)) ks) = Some (f k).
Proof.
  induction ks as [|x ks IH]; simpl; [tauto|].
  destruct (label_eqb_spec x k) as [->|Hne]; [reflexivity|].
  intros [E|Hin]; [contradiction|auto].
Qed.

Lemma loc_map_nokey {V} (f : K -> V) (ks : list K) (k : K) :
  ~ In k ks -> loc k (map (fun x => (x, f x)) ks) = None.
Proof.
  induction ks as [|x ks IH]; simpl; [reflexivity|].
  intros Hn. destruct (label_eqb_spec x k) as [->|Hne]; [tauto|].
  apply IH. tauto.
Qed.

Lemma group_keys_nil_iff (df : list R) :
  group_keys by_ df = [] <-> (forall r, In r df -> by_ r = None).
Proof.
  split.
  - intros E r Hr. destruct (by_ r) as [k|] eqn:Ek; [|reflexivity].
    exfalso.
    assert (Hin : In k (group_keys by_ df))
      by (apply in_group_keys; rewrite <- Ek; now apply in_map).
    rewrite E in Hin. exact Hin.
  - intros Hall. destruct (group_keys by_ df) as [|k ks] eqn:E; [reflexivity|].
    exfalso.
    assert (Hin : In k (group_keys by_ df)) by (rewrite E; now left).
    apply in_group_keys, in_map_iff in Hin. destruct Hin as (r & Hk & Hr).
    rewrite (Hall r Hr) in Hk. discriminate.
Qed.

Lemma group_keys_length (df : list R) (n : Z) :
  distinct_count (dropna (map by_ df)) n ->
  Z.of_nat (List.length (group_keys by_ df)) = n.
Proof.
  intros (d & Hnd & Hd & ->). f_equal.
  apply NoDup_same_length; [apply NoDup_group_keys|exact Hnd|].
  intros x. rewrite Hd, in_dropna. apply in_group_keys.
Qed.

Context `{!LabelOrder K}.

Lemma group_keys_sorted (df : list R) :
  StronglySorted (fun a b => label_leb a b = true) (group_keys by_ df).
Proof.
  apply sort_by_sorted; [apply label_leb_total|apply label_leb_trans].
Qed.

Lemma group_keys_strict (df : list R) :
  StronglySorted (fun a b => label_leb a b = true /\ a <> b)
                 (group_keys by_ df).
Proof.
  apply StronglySorted_NoDup_strict;
    [apply group_keys_sorted|apply NoDup_group_keys].
Qed.

(** The group labels depend on the rows present, not on their order. *)
Lemma group_keys_Permutation (df df' : list R) :
  Permutation df df' -> group_keys by_ df = group_keys by_ df'.
Proof.
  intros HP.
  apply (sorted_Permutation_eq (fun a b => label_leb a b = true));
    [apply label_leb_antisym|apply group_keys_sorted|apply group_keys_sorted|].
  apply NoDup_Permutation; try apply NoDup_group_keys.
  intros k. rewrite !in_group_keys.
  split; apply Permutation_in; [|symmetry]; now apply Permutation_map.
Qed.

Lemma groupby_sum_Permutation (col : R -> Z) (df df' : list R) :
  Permutation df df' -> groupby_sum by_ col df = groupby_sum by_ col df'.
Proof.
  intros HP. unfold groupby_sum.
  rewrite (group_keys_Permutation df df' HP).
  apply map_ext. intros k. f_equal.
  apply int64_sum_Permutation, Permutation_map.
  now apply filter_Permutation.
Qed.
End GroupByFacts.

Lemma group_keys_string_lt {R} (by_ : R -> option string) (df : list R) :
  StronglySorted string_lt (group_keys by_ df).
Proof.
  eapply StronglySorted_weaken; [|apply (group_keys_strict by_ df)].
  simpl. intros a b [Hle Hne]. now apply string_leb_lt.
Qed.

(** ** Ranking *)

Lemma sort_values_desc_Permutation {K} (s : Series K) :
  Permutation (sort_values_desc s) s.
Proof.
  unfold sort_values_desc.
  rewrite <- Permutation_rev, sort_by_Permutation. symmetry.
  apply Permutation_rev.
Qed.

Lemma sort_values_desc_sorted {K} (s : Series K) :
  StronglySorted (fun a b => snd b <= snd a) (sort_values_desc s).
Proof.
  unfold sort_values_desc.
  apply (StronglySorted_rev (fun a b : K * Z => snd a <= snd b)).
  eapply StronglySorted_weaken;
    [|apply (sort_by_sorted (fun a b : K * Z => snd a <=? snd b))].
  - intros a b Hab. now apply Z.leb_le.
  - intros a b. rewrite !Z.leb_le. lia.
  - intros a b c. rewrite !Z.leb_le. lia.
Qed.

Lemma sort_values_desc_total {K} (s : Series K) :
  int64_sum (map snd (sort_values_desc s)) = int64_sum (map snd s).
Proof.
  apply int64_sum_Permutation, Permutation_map, sort_values_desc_Permutation.
Qed.

Section RankedFacts.
Context {R K : Type} `{LabelOk K}.
Variable by_ : R -> option K.
Variable col : R -> Z.

Lemma ranked_NoDup (df : list R) :
  NoDup (map fst (sort_values_desc (groupby_sum by_ col df))).
Proof.
  eapply Permutation_NoDup;
    [symmetry; apply Permutation_map, sort_values_desc_Permutation|].
  rewrite groupby_sum_keys. apply NoDup_group_keys.
Qed.

Lemma ranked_In (df : list R) (k : K) (v : Z) :
  In (k, v) (sort_values_desc (groupby_sum by_ col df)) <->
  In (Some k) (map by_ df) /\ v = int64_sum (map col (get_group by_ k df)).
Proof.
  rewrite <- in_groupby_sum.
  split; apply Permutation_in;
    [|symmetry]; apply sort_values_desc_Permutation.
Qed.

Lemma ranked_length (df : list R) :
  List.length (sort_values_desc (groupby_sum by_ col df)) =
  List.length (group_keys by_ df).
Proof.
  rewrite (Permutation_length (sort_values_desc_Permutation _)).
  unfold groupby_sum. apply length_map.
Qed.

Lemma ranked_nil_iff (df : list R) :
  sort_values_desc (groupby_sum by_ col df) = [] <->
  (forall r, In r df -> by_ r = None).
Proof.
  rewrite <- (group_keys_nil_iff by_ df). split; intros E.
  - apply length_zero_iff_nil. rewrite <- ranked_length, E. reflexivity.
  - apply length_zero_iff_nil. rewrite ranked_length, E. reflexivity.
Qed.
End RankedFacts.

(** ** Revenue conservation and ranking *)

(** C1, amended. Revenue conservation: for a frame with int64 revenue in
    which every row has a customer_name and a region, the values of
    [customer_revenue] and the values of [region_sales] both add up to the
    sum of the revenue column. *)
Theorem revenue_conservation (df : DataFrame) :
  all_present customer_name df -> all_present region df ->
  int64_sum (map snd (fst (customer_analysis df))) =
    int64_sum (map revenue df) /\
  int64_sum (map snd (snd (sales_analysis df))) =
    int64_sum (map revenue df) /\
  int64_sum (map snd (fst (customer_analysis df))) =
    int64_sum (map snd (snd (sales_analysis df))).
Proof.
  intros Hname Hregion.
  change (fst (customer_analysis df))
    with (sort_values_desc (groupby_sum customer_name revenue df)).
  change (snd (sales_analysis df))
    with (sort_values_desc (groupby_sum region revenue df)).
  rewrite !sort_values_desc_total.
  rewrite (groupby_sum_total_present customer_name revenue df Hname).
  rewrite (groupby_sum_total_present region revenue df Hregion).
  auto.
Qed.

Lemma revenue_conservation_witness :
  int64_sum (map snd (fst (customer_analysis example_df))) = 30 /\
  int64_sum (map snd (snd (sales_analysis example_df))) = 30.
Proof.
  destruct (revenue_conservation example_df) as (Hc & Hr & _).
  - intros r [<-|[<-|[]]]; discriminate.
  - intros r [<-|[<-|[]]]; discriminate.
  - split; [exact Hc|exact Hr].
Defined.

(** C1 as first stated fails: a customer row without a name joins to a
    frame whose [customer_revenue] is empty, while its revenue column and
    its [region_sales] add up to 20. *)
Lemma revenue_conservation_counterexample :
  preprocess_data iso_to_datetime
    [sold 1 1 "Widget" 2 10 "2024-01-05" "West"] [mkCustomer (Some 1) None]
    = inr [nameless_row] /\
  int64_sum (map snd (fst (customer_analysis [nameless_row]))) <>
  int64_sum (map revenue [nameless_row]).
Proof.
  split; [reflexivity|]. vm_compute. discriminate.
Qed.

(** C5. Ranking correctness: [customer_revenue] and [region_sales] are
    non-increasing by value from each element to the next. *)
Theorem ranking_non_increasing (df : DataFrame) :
  non_increasing (fst (customer_analysis df)) /\
  non_increasing (snd (sales_analysis df)).
Proof.
  split; apply StronglySorted_Sorted, sort_values_desc_sorted.
Qed.

(** ** The join *)

Section PreprocessFacts.
Variable to_datetime : list (option string) -> string -> Result Timestamp.

Lemma mapM_length {A B} (f : A -> Result B) (l : list A) (l' : list B) :
  mapM f l = inr l' -> List.length l' = List.length l.
Proof.
  revert l'. induction l as [|x l IH]; simpl; intros l' E.
  - inversion E. reflexivity.
  - destruct (f x) as [e|y]; simpl in E; [discriminate|].
    destruct (mapM f l) as [e|ys]; simpl in E; [discriminate|].
    inversion E. simpl. f_equal. now apply IH.
Qed.

Lemma mapM_returns {A B} (f : A -> Result B) (l : list A) :
  (forall x, In x l -> exists y, f x = inr y) ->
  exists l', mapM f l = inr l'.
Proof.
  induction l as [|x l IH]; simpl; intros Hall.
  - now exists [].
  - destruct (Hall x) as [y Hy]; [now left|].
    destruct IH as [ys Hys]; [intros; apply Hall; now right|].
    rewrite Hy, Hys. simpl. now exists (y :: ys).
Qed.

Lemma mapM_inr {A B} (f : A -> Result B) (l : list A) (l' : list B) :
  mapM f l = inr l' <-> Forall2 (fun x y => f x = inr y) l l'.
Proof.
  revert l'. induction l as [|x l IH]; intros l'; simpl.
  - split.
    + intros E. inversion E. constructor.
    + intros HF. inversion HF. reflexivity.
  - split.
    + destruct (f x) as [e|y] eqn:Ex; simpl; [discriminate|].
      destruct (mapM f l) as [e|ys] eqn:El; simpl; [discriminate|].
      intros E. inversion E. constructor; [assumption|]. now apply IH.
    + intros HF. inversion HF as [|? y ? ys Hy Hys]; subst.
      rewrite Hy. simpl. apply IH in Hys. rewrite Hys. reflexivity.
Qed.

Lemma mapM_inl {A B} (f : A -> Result B) (l : list A) (e : Exception) :
  mapM f l = inl e -> exists x, In x l /\ f x = inl e.
Proof.
  induction l as [|x l IH]; simpl; [discriminate|].
  destruct (f x) as [e'|y] eqn:Ex; simpl.
  - intros E. inversion E; subst. exists x. auto.
  - destruct (mapM f l) as [e'|ys]; simpl; [|discriminate].
    intros E. inversion E; subst.
    destruct IH as (x' & Hin & Hx'); [reflexivity|]. exists x'. auto.
Qed.

Lemma Forall2_in_l {A B} (P : A -> B -> Prop) (l : list A) (l' : list B)
    (x : A) :
  Forall2 P l l' -> In x l -> exists y, In y l' /\ P x y.
Proof.
  induction 1 as [|a b l l' Hab HF IH]; simpl; [tauto|].
  intros [->|Hin]; [eauto|].
  destruct (IH Hin) as (y & Hy & Hp). eauto.
Qed.

Lemma Forall2_in_r {A B} (P : A -> B -> Prop) (l : list A) (l' : list B)
    (y : B) :
  Forall2 P l l' -> In y l' -> exists x, In x l /\ P x y.
Proof.
  induction 1 as [|a b l l' Hab HF IH]; simpl; [tauto|].
  intros [->|Hin]; [eauto|].
  destruct (IH Hin) as (x & Hx & Hp). eauto.
Qed.

Lemma prepare_inr (column : list (option string)) (s : SalesRecord)
    (p : PreparedSale) :
  prepare to_datetime column s = inr p <->
  exists d, read_date to_datetime column (s_order_date s) = inr d /\
            p = mkPrepared s d (int64_mul (s_quantity s) (s_price s))
                  (option_map to_period_M d).
Proof.
  unfold prepare.
  destruct (read_date to_datetime column (s_order_date s)) as [e|d]; simpl.
  - split; [discriminate|]. intros (d & Hd & _). discriminate.
  - split.
    + intros E. inversion E. eauto.
    + intros (d' & Hd & ->). inversion Hd. reflexivity.
Qed.

Lemma prepare_inl (column : list (option string)) (s : SalesRecord)
    (e : Exception) :
  prepare to_datetime column s = inl e <->
  exists str, s_order_date s = Some str /\ to_datetime column str = inl e.
Proof.
  unfold prepare, read_date, bind, ret.
  destruct (s_order_date s) as [str|].
  - destruct (to_datetime column str) as [e'|d] eqn:Ed; split.
    + intros E. inversion E; subst. eauto.
    + intros (str' & Hs & He). inversion Hs; subst. congruence.
    + discriminate.
    + intros (str' & Hs & He). inversion Hs; subst. congruence.
  - split; [discriminate|]. intros (str & Hs & _). discriminate.
Qed.

Lemma read_date_returns (column : list (option string))
    (cell : option string) :
  (forall str, cell = Some str -> exists d, to_datetime column str = inr d) ->
  exists d, read_date to_datetime column cell = inr d.
Proof.
  intros Hall. destruct cell as [str|]; simpl; [|eauto].
  destruct (Hall str eq_refl) as [d Hd]. rewrite Hd. simpl. eauto.
Qed.

(** The frame is produced whenever every order_date can be read. *)
Lemma preprocess_data_returns (sales : list SalesRecord)
    (customers : list CustomerRecord) :
  (forall s, In s sales ->
     exists d, read_date to_datetime (map s_order_date sales)
                 (s_order_date s) = inr d) ->
  exists df, preprocess_data to_datetime sales customers = inr df.
Proof.
  intros Hall. unfold preprocess_data.
  destruct (mapM_returns (prepare to_datetime (map s_order_date sales)) sales)
    as [ps Hps].
  - intros s Hs. destruct (Hall s Hs) as [d Hd].
    unfold prepare. rewrite Hd. simpl. eauto.
  - rewrite Hps. simpl. eauto.
Qed.

Lemma preprocess_data_inr (sales : list SalesRecord)
    (customers : list CustomerRecord) (df : DataFrame) :
  preprocess_data to_datetime sales customers = inr df ->
  exists ps,
    Forall2 (fun s p => prepare to_datetime (map s_order_date sales) s = inr p)
            sales ps /\
    df = merge_inner ps customers.
Proof.
  unfold preprocess_data. intros E.
  destruct (mapM (prepare to_datetime (map s_order_date sales)) sales)
    as [e|ps] eqn:Eps; simpl in E; [discriminate|].
  inversion E; subst. exists ps. split; [|reflexivity].
  now apply mapM_inr.
Qed.

(** When [preprocess_data] raises, the exception is the one the date reader
    raised on the order_date of some sales row. *)
Lemma preprocess_data_inl (sales : list SalesRecord)
    (customers : list CustomerRecord) (e : Exception) :
  preprocess_data to_datetime sales customers = inl e ->
  exists s str, In s sales /\ s_order_date s = Some str /\
                to_datetime (map s_order_date sales) str = inl e.
Proof.
  unfold preprocess_data. intros E.
  destruct (mapM (prepare to_datetime (map s_order_date sales)) sales)
    as [e'|ps] eqn:Eps; simpl in E; [|discriminate].
  inversion E; subst. apply mapM_inl in Eps.
  destruct Eps as (s & Hs & Hp). apply prepare_inl in Hp.
  destruct Hp as (str & Hstr & He). eauto.
Qed.

Lemma preprocess_data_dates (sales : list SalesRecord)
    (customers : list CustomerRecord) (df : DataFrame) :
  preprocess_data to_datetime sales customers = inr df ->
  forall s, In s sales ->
    exists d, read_date to_datetime (map s_order_date sales)
                (s_order_date s) = inr d.
Proof.
  intros E s Hs. apply preprocess_data_inr in E.
  destruct E as (ps & HF & _).
  destruct (Forall2_in_l _ _ _ s HF Hs) as (p & _ & Hp).
  apply prepare_inr in Hp. destruct Hp as (d & Hd & _). eauto.
Qed.

Lemma in_merge_inner (ps : list PreparedSale)
    (customers : list CustomerRecord) (r : EnrichedSalesRecord) :
  In r (merge_inner ps customers) <->
  exists p c, In p ps /\ In c customers /\
              c_customer_id c = s_customer_id (sale p) /\
              r = merge_row p c.
Proof.
  unfold merge_inner. rewrite in_flat_map. split.
  - intros (p & Hp & Hr). apply in_map_iff in Hr.
    destruct Hr as (c & <- & Hc). apply filter_In in Hc.
    destruct Hc as [Hc E]. apply key_eqb_true in E. exists p, c. auto.
  - intros (p & c & Hp & Hc & E & ->). exists p. split; [assumption|].
    apply in_map, filter_In. split; [assumption|]. now apply key_eqb_true.
Qed.

Lemma merge_inner_customer (sales : list PreparedSale)
    (customers : list CustomerRecord) (r : EnrichedSalesRecord) :
  In r (merge_inner sales customers) ->
  In (customer_id r) (map c_customer_id customers).
Proof.
  rewrite in_merge_inner. intros (p & c & _ & Hc & E & ->).
  simpl. rewrite <- E. now apply in_map.
Qed.

Lemma matches_at_most_one (customers : list CustomerRecord) (k : option Z) :
  NoDup (map c_customer_id customers) ->
  (List.length (filter (fun c => key_eqb (c_customer_id c) k) customers)
   <= 1)%nat.
Proof.
  induction customers as [|c cs IH]; simpl; intros Hnd; [lia|].
  inversion Hnd as [|? ? Hnotin Hnd']; subst.
  destruct (key_eqb (c_customer_id c) k) eqn:E; [|auto].
  apply key_eqb_true in E.
  simpl. replace (filter (fun c0 => key_eqb (c_customer_id c0) k) cs) with
    (@nil CustomerRecord); [simpl; lia|].
  symmetry. clear IH Hnd Hnd'. induction cs as [|c' cs IHcs]; [reflexivity|].
  simpl. destruct (key_eqb (c_customer_id c') k) eqn:E'.
  - apply key_eqb_true in E'. exfalso. apply Hnotin. left. congruence.
  - apply IHcs. intros Hc. apply Hnotin. now right.
Qed.

Lemma merge_inner_length (sales : list PreparedSale)
    (customers : list CustomerRecord) :
  NoDup (map c_customer_id customers) ->
  (List.length (merge_inner sales customers) <= List.length sales)%nat.
Proof.
  intros Hnd. unfold merge_inner.
  induction sales as [|s sales IH]; simpl; [lia|].
  rewrite length_app, length_map.
  pose proof (matches_at_most_one customers (s_customer_id (sale s)) Hnd).
  lia.
Qed.

Lemma matches_count (customers : list CustomerRecord) (s : SalesRecord) :
  NoDup (map c_customer_id customers) ->
  List.length
    (filter (fun c => key_eqb (c_customer_id c) (s_customer_id s)) customers) =
  if has_customer customers s then 1%nat else 0%nat.
Proof.
  intros Hnd. unfold has_customer.
  pose proof (matches_at_most_one customers (s_customer_id s) Hnd) as Hle.
  destruct (existsb _ customers) eqn:Ex.
  - apply existsb_exists in Ex. destruct Ex as (c & Hc & E).
    assert (Hin : In c (filter (fun c => key_eqb (c_customer_id c)
                                                 (s_customer_id s))
                               customers))
      by (apply filter_In; auto).
    destruct (filter _ customers) as [|c0 [|c1 t]]; simpl in *;
      [contradiction|reflexivity|lia].
  - destruct (filter _ customers) as [|c0 t] eqn:Ef; [reflexivity|].
    assert (Hin : In c0 (filter (fun c => key_eqb (c_customer_id c)
                                                  (s_customer_id s))
                                customers))
      by (rewrite Ef; now left).
    apply filter_In in Hin. destruct Hin as [Hc0 E].
    assert (existsb (fun c => key_eqb (c_customer_id c) (s_customer_id s))
                    customers = true) by (apply existsb_exists; eauto).
    congruence.
Qed.

Lemma merge_inner_count (sales : list SalesRecord) (ps : list PreparedSale)
    (customers : list CustomerRecord) :
  NoDup (map c_customer_id customers) ->
  Forall2 (fun s p => sale p = s) sales ps ->
  List.length (merge_inner ps customers) =
  List.length (filter (has_customer customers) sales).
Proof.
  intros Hnd. induction 1 as [|s p sales ps Hsp HF IH]; [reflexivity|].
  unfold merge_inner in *. simpl. rewrite length_app, length_map, IH, Hsp.
  rewrite (matches_count customers s Hnd).
  destruct (has_customer customers s); reflexivity.
Qed.

Lemma preprocess_data_row_origin (sales : list SalesRecord)
    (customers : list CustomerRecord) (df : DataFrame)
    (r : EnrichedSalesRecord) :
  preprocess_data to_datetime sales customers = inr df -> In r df ->
  exists s c, In s sales /\ In c customers /\
              c_customer_id c = s_customer_id s.
Proof.
  intros E Hr. apply preprocess_data_inr in E. destruct E as (ps & HF & ->).
  apply in_merge_inner in Hr. destruct Hr as (p & c & Hp & Hc & Hid & _).
  destruct (Forall2_in_r _ _ _ p HF Hp) as (s & Hs & Hps).
  apply prepare_inr in Hps. destruct Hps as (d & _ & ->).
  exists s, c. auto.
Qed.
End PreprocessFacts.

(** C2, amended. Join invariant: every row of the frame returned by
    [preprocess_data] has a customer_id that occurs in the customer table;
    and when the customer_ids of the customer table are pairwise distinct,
    the frame has at most as many rows as the sales table. *)
Theorem join_invariant
    (to_datetime : list (option string) -> string -> Result Timestamp)
    (sales : list SalesRecord) (customers : list CustomerRecord)
    (df : DataFrame) :
  preprocess_data to_datetime sales customers = inr df ->
  (forall r, In r df -> In (customer_id r) (map c_customer_id customers)) /\
  (NoDup (map c_customer_id customers) ->
   (List.length df <= List.length sales)%nat).
Proof.
  unfold preprocess_data. intros E.
  destruct (mapM (prepare to_datetime (map s_order_date sales)) sales)
    as [e|ps] eqn:Eps; simpl in E; [discriminate|].
  inversion E; subst. split.
  - intros r. apply merge_inner_customer.
  - intros Hnd. rewrite <- (mapM_length _ _ _ Eps).
    now apply merge_inner_length.
Qed.

Lemma preprocess_example :
  preprocess_data iso_to_datetime example_sales example_customers =
  inr example_df.
Proof. reflexivity. Qed.

Lemma join_invariant_witness :
  exists df,
    preprocess_data iso_to_datetime example_sales example_customers = inr df /\
    (forall r, In r df ->
       In (customer_id r) (map c_customer_id example_customers)) /\
    (List.length df <= List.length example_sales)%nat.
Proof.
  eexists. split; [reflexivity|].
  pose proof (join_invariant iso_to_datetime example_sales example_customers
                _ eq_refl) as [Hin Hlen].
  split; [exact Hin|]. apply Hlen. simpl.
  constructor; [simpl; tauto|constructor].
Defined.

(** C2 as first stated fails: a customer table listing customer_id 1 twice
    turns one sales row into two rows of the frame. *)
Lemma join_row_count_counterexample :
  exists df,
    preprocess_data iso_to_datetime
      [sold 1 1 "Widget" 2 10 "2024-01-05" "West"]
      [customer 1 "Alice"; customer 1 "Alicia"] = inr df /\
    ~ (List.length df <=
       List.length [sold 1 1 "Widget" 2 10 "2024-01-05" "West"])%nat.
Proof.
  eexists. split; [reflexivity|]. simpl. lia.
Qed.

(** ** The worked example *)

(** C3. End-to-end example: on the two Widget orders of customer Alice the
    pipeline yields customer_revenue = {Alice: 30}, clv[1] = (30, 2, 15),
    monthly_sales = [2024-01: 20, 2024-02: 10] and pivot[West][Widget] = 30. *)
Theorem end_to_end_example :
  exists rep,
    main iso_to_datetime example_sales example_customers = inr rep /\
    r_customer_revenue rep = [("Alice"%string, 30)] /\
    loc 1 (r_clv rep) =
      Some {| total_spent := 30; total_orders := 2;
              avg_order_value := 15%float |} /\
    map (fun '(m, v) => (Period_str m, v)) (r_monthly_sales rep) =
      [("2024-01"%string, 20); ("2024-02"%string, 10)] /\
    pivot_loc (r_pivot_table rep) "West" "Widget" = Some (Some (Int64 30)).
Proof.
  eexists. split; [vm_compute; reflexivity|].
  repeat split; vm_compute; reflexivity.
Qed.

(** ** The report *)

(** C10, amended. With an empty [customer_revenue], [print_summary] stops at
    the read of [customer_revenue.index[0]] with pandas' IndexError, and
    reports nothing. *)
Theorem print_summary_empty (df : DataFrame) :
  print_summary df [] = raise IndexError.
Proof. reflexivity. Qed.

(** C10 as first stated fails: the error raised on the empty frame is not
    an EmptyResultError. *)
Lemma print_summary_empty_counterexample :
  ~ exists e, print_summary [] [] = inl e /\
              exc_type e = "EmptyResultError"%string.
Proof.
  intros (e & He & Ht). inversion He; subst. discriminate Ht.
Qed.

Lemma print_summary_nonempty (df : DataFrame) (k : string) (v : Z)
    (s : Series string) :
  exists sm, print_summary df ((k, v) :: s) = inr sm /\
             top_customer sm = k /\ top_customer_value sm = v.
Proof. eexists. split; [reflexivity|]. simpl. auto. Qed.

(** ** Customer lifetime value *)

Lemma nunique_distinct_count {K} `{LabelOk K} (column : list (option K)) :
  distinct_count (dropna column) (nunique column).
Proof.
  exists (unique (dropna column)). split; [apply NoDup_unique|].
  split; [intros; apply in_unique|reflexivity].
Qed.


Lemma clv_rows (df : DataFrame) :
  snd (customer_analysis df) =
  map (fun c => (c, clv_row df c)) (group_keys customer_id df).
Proof.
  simpl. unfold clv_agg. rewrite map_map. reflexivity.
Qed.

(** The float64 quotient is rounded, and a zero divisor gives an infinity or
    NaN rather than an error. *)
Lemma true_divide_examples :
  true_divide 30 2 = 15%float /\
  true_divide 10 3 = 0x1.aaaaaaaaaaaabp+1%float /\
  true_divide 20 0 = infinity /\
  true_divide 0 0 = nan.
Proof. repeat split; vm_compute; reflexivity. Qed.






(** ** Monthly sales *)

Lemma group_keys_month_ascending (df : DataFrame) :
  StronglySorted Period_lt (group_keys month df).
Proof.
  eapply StronglySorted_weaken; [|apply (group_keys_strict month df)].
  simpl. intros p q [Hle Hne]. now apply Period_leb_lt.
Qed.

(** C7. Monthly ordering: [monthly_sales] has exactly one row for each month
    present in the frame, carrying the summed revenue of that month, and its
    rows ascend by month. *)
Theorem monthly_sales_ordered (df : DataFrame) :
  let monthly_sales := fst (fst (sales_analysis df)) in
  NoDup (map fst monthly_sales) /\
  (forall m, In m (map fst monthly_sales) <-> In (Some m) (map month df)) /\
  (forall m v, In (m, v) monthly_sales ->
     v = int64_sum
           (map revenue (filter (fun r => key_is m (month r)) df))) /\
  StronglySorted Period_lt (map fst monthly_sales).
Proof.
  cbv zeta.
  change (fst (fst (sales_analysis df))) with (groupby_sum month revenue df).
  rewrite groupby_sum_keys. split; [apply NoDup_group_keys|].
  split; [intros m; apply in_group_keys|].
  split; [|apply group_keys_month_ascending].
  intros m v Hin. apply in_groupby_sum in Hin. apply Hin.
Qed.

Lemma monthly_sales_ordered_witness :
  In (mkPeriod 2024 2, 10) (fst (fst (sales_analysis example_df))) /\
  10 = int64_sum
         (map revenue
              (filter (fun r => key_is (mkPeriod 2024 2) (month r))
                      example_df)).
Proof.
  assert (Hin : In (mkPeriod 2024 2, 10)
                   (fst (fst (sales_analysis example_df))))
    by (vm_compute; auto).
  split; [exact Hin|].
  destruct (monthly_sales_ordered example_df) as (_ & _ & Hval & _).
  exact (Hval _ _ Hin).
Defined.

(** ** Top products *)

Lemma top_products_eq (df : DataFrame) :
  snd (fst (sales_analysis df)) =
  head 10 (sort_values_desc (groupby_sum product_name revenue df)).
Proof. reflexivity. Qed.

(** C8. Top-products truncation: [top_products] is the first ten entries of
    the per-product revenue sums ranked in descending order, so it has
    min(10, number of distinct product_name values) entries. *)
Theorem top_products_truncation (df : DataFrame) :
  let top_products := snd (fst (sales_analysis df)) in
  exists ranked : Series string,
    top_products = firstn 10 ranked /\
    non_increasing ranked /\
    NoDup (map fst ranked) /\
    (forall p v, In (p, v) ranked <->
       In (Some p) (map product_name df) /\
       v = int64_sum
             (map revenue (filter (fun r => key_is p (product_name r)) df)))
    /\
    (forall n, distinct_count (dropna (map product_name df)) n ->
       Z.of_nat (List.length top_products) = Z.min 10 n).
Proof.
  cbv zeta. rewrite top_products_eq.
  exists (sort_values_desc (groupby_sum product_name revenue df)).
  split; [reflexivity|].
  split; [apply StronglySorted_Sorted, sort_values_desc_sorted|].
  split; [apply (ranked_NoDup product_name revenue)|].
  split; [intros p v; exact (ranked_In product_name revenue df p v)|].
  intros n Hn. unfold head.
  rewrite length_firstn, ranked_length.
  rewrite <- (group_keys_length product_name df n Hn). lia.
Qed.

Lemma top_products_truncation_witness :
  distinct_count (dropna (map product_name eleven_products_df)) 11 /\
  Z.of_nat (List.length (snd (fst (sales_analysis eleven_products_df)))) =
  Z.min 10 11.
Proof.
  assert (Hd : distinct_count (dropna (map product_name eleven_products_df))
                              11).
  { exists (group_keys product_name eleven_products_df).
    split; [apply NoDup_group_keys|]. split; [|reflexivity].
    intros x. rewrite in_dropna. apply in_group_keys. }
  split; [exact Hd|].
  destruct (top_products_truncation eleven_products_df)
    as (_ & _ & _ & _ & _ & Hlen).
  exact (Hlen 11 Hd).
Defined.

(** ** The pivot table *)

Lemma in_pair_rows (df : DataFrame) (r p : string) (x : EnrichedSalesRecord) :
  In x (pair_rows df r p) <->
  In x df /\ region x = Some r /\ product_name x = Some p.
Proof.
  unfold pair_rows.
  now rewrite filter_In, andb_true_iff, !key_is_true.
Qed.

Lemma in_pivot_frame (df : DataFrame) (x : EnrichedSalesRecord) :
  In x (pivot_frame df) <->
  In x df /\ region x <> None /\ product_name x <> None.
Proof.
  unfold pivot_frame.
  now rewrite filter_In, andb_true_iff, !notna_true.
Qed.

Lemma pivot_sum_rows (df : DataFrame) (r p : string) :
  pivot_sum df r p =
  match pair_rows df r p with
  | [] => None
  | g => Some (int64_sum (map revenue g))
  end.
Proof.
  unfold pivot_sum, get_group, pair_rows. now rewrite filter_twice.
Qed.

Lemma pivot_sum_present (df : DataFrame) (r p : string) :
  pair_present df r p ->
  pivot_sum df r p = Some (int64_sum (map revenue (pair_rows df r p))).
Proof.
  intros (x & Hx). apply in_pair_rows in Hx.
  rewrite pivot_sum_rows. destruct (pair_rows df r p); [contradiction|].
  reflexivity.
Qed.

Lemma pivot_sum_absent (df : DataFrame) (r p : string) :
  ~ pair_present df r p -> pivot_sum df r p = None.
Proof.
  intros Hn. rewrite pivot_sum_rows.
  destruct (pair_rows df r p) as [|x g] eqn:E; [reflexivity|].
  exfalso. apply Hn. exists x. apply in_pair_rows. rewrite E. now left.
Qed.

Lemma pivot_cell_present (df : DataFrame) (r p : string) :
  pair_present df r p ->
  pivot_cell df r p =
  Some (stored (pivot_has_hole df)
               (int64_sum (map revenue (pair_rows df r p)))).
Proof.
  intros Hp. unfold pivot_cell. now rewrite pivot_sum_present.
Qed.

Lemma pivot_cell_absent (df : DataFrame) (r p : string) :
  ~ pair_present df r p -> pivot_cell df r p = None.
Proof.
  intros Hn. unfold pivot_cell. now rewrite pivot_sum_absent.
Qed.

(** The labels of the table come from the rows that have both keys. *)
Lemma in_pivot_index (df : DataFrame) (r : string) :
  In r (group_keys region (pivot_frame df)) <->
  exists x, In x df /\ region x = Some r /\ product_name x <> None.
Proof.
  rewrite in_group_keys, in_map_iff. split.
  - intros (x & Hr & Hx). apply in_pivot_frame in Hx.
    exists x. tauto.
  - intros (x & Hx & Hr & Hp). exists x. split; [exact Hr|].
    apply in_pivot_frame. rewrite Hr.
    repeat split; [assumption|discriminate|assumption].
Qed.

Lemma in_pivot_columns (df : DataFrame) (p : string) :
  In p (group_keys product_name (pivot_frame df)) <->
  exists x, In x df /\ product_name x = Some p /\ region x <> None.
Proof.
  rewrite in_group_keys, in_map_iff. split.
  - intros (x & Hp & Hx). apply in_pivot_frame in Hx.
    exists x. tauto.
  - intros (x & Hx & Hp & Hr). exists x. split; [exact Hp|].
    apply in_pivot_frame. rewrite Hp.
    repeat split; [assumption|assumption|discriminate].
Qed.

Lemma pair_present_labels (df : DataFrame) (r p : string) :
  pair_present df r p ->
  In r (group_keys region (pivot_frame df)) /\
  In p (group_keys product_name (pivot_frame df)).
Proof.
  intros (x & Hx & Hr & Hp). split.
  - apply in_pivot_index. exists x. rewrite Hp.
    repeat split; [assumption|assumption|discriminate].
  - apply in_pivot_columns. exists x. rewrite Hr.
    repeat split; [assumption|assumption|discriminate].
Qed.

Lemma in_pivot_analysis (df : DataFrame) (r : string)
    (cells : list (string * option Number)) :
  In (r, cells) (pivot_analysis df) <->
  In r (group_keys region (pivot_frame df)) /\
  cells = map (fun p => (p, pivot_cell df r p))
              (group_keys product_name (pivot_frame df)).
Proof.
  unfold pivot_analysis. rewrite in_map_iff. split.
  - intros (r' & E & Hin). inversion E; subst. auto.
  - intros [Hin ->]. exists r. auto.
Qed.

Lemma pivot_row_labels (df : DataFrame) :
  map fst (pivot_analysis df) = group_keys region (pivot_frame df).
Proof. unfold pivot_analysis. rewrite map_map. apply map_id. Qed.

(** A lookup in the pivot table, by cases on the two labels. *)
Lemma pivot_loc_labels (df : DataFrame) (r p : string) :
  In r (group_keys region (pivot_frame df)) ->
  In p (group_keys product_name (pivot_frame df)) ->
  pivot_loc (pivot_analysis df) r p = Some (pivot_cell df r p).
Proof.
  intros Hr Hp. unfold pivot_loc, pivot_analysis.
  rewrite (loc_map_key
             (fun r => map (fun p => (p, pivot_cell df r p))
                           (group_keys product_name (pivot_frame df))))
    by exact Hr.
  now apply (loc_map_key (fun p => pivot_cell df r p)).
Qed.

Lemma pivot_loc_value (df : DataFrame) (r p : string) (v : Number) :
  pivot_loc (pivot_analysis df) r p = Some (Some v) ->
  pivot_cell df r p = Some v.
Proof.
  unfold pivot_loc, pivot_analysis.
  destruct (in_dec string_dec r (group_keys region (pivot_frame df)))
    as [Hr|Hr].
  - rewrite (loc_map_key
               (fun r => map (fun p => (p, pivot_cell df r p))
                             (group_keys product_name (pivot_frame df))))
      by exact Hr.
    destruct (in_dec string_dec p
                (group_keys product_name (pivot_frame df))) as [Hp|Hp].
    + rewrite (loc_map_key (fun p => pivot_cell df r p)) by exact Hp.
      congruence.
    + rewrite (loc_map_nokey (fun p => pivot_cell df r p)) by exact Hp.
      discriminate.
  - rewrite (loc_map_nokey
               (fun r => map (fun p => (p, pivot_cell df r p))
                             (group_keys product_name (pivot_frame df))))
      by exact Hr.
    discriminate.
Qed.

(** The table has no empty cell exactly when every pair of its labels
    occurs in some row. *)
Lemma pivot_has_hole_false (df : DataFrame) :
  pivot_has_hole df = false <->
  forall r p, In r (group_keys region (pivot_frame df)) ->
              In p (group_keys product_name (pivot_frame df)) ->
              pair_present df r p.
Proof.
  unfold pivot_has_hole. split.
  - intros Hno r p Hr Hp.
    destruct (pivot_sum df r p) as [v|] eqn:Es.
    + rewrite pivot_sum_rows in Es.
      destruct (pair_rows df r p) as [|x g] eqn:Eg; [discriminate|].
      exists x. apply in_pair_rows. rewrite Eg. now left.
    + exfalso.
      assert (Hex : existsb
                (fun r =>
                   existsb (fun p => negb (notna (pivot_sum df r p)))
                           (group_keys product_name (pivot_frame df)))
                (group_keys region (pivot_frame df)) = true).
      { apply existsb_exists. exists r. split; [exact Hr|].
        apply existsb_exists. exists p. split; [exact Hp|].
        rewrite Es. reflexivity. }
      congruence.
  - intros Hall.
    destruct (existsb _ (group_keys region (pivot_frame df))) eqn:Ex;
      [|reflexivity].
    apply existsb_exists in Ex. destruct Ex as (r & Hr & Ex).
    apply existsb_exists in Ex. destruct Ex as (p & Hp & Ex).
    rewrite (pivot_sum_present df r p (Hall r p Hr Hp)) in Ex. discriminate.
Qed.

(** C9, amended. Pivot completeness: a (region, product_name) pair that
    occurs in some row is a cell holding the sum of revenue over the rows
    with that pair, as an int64 when the table has no empty cell and as the
    nearest float64 when it has one; a pair that occurs in no row never
    holds a number, and is an empty cell wherever its region and its
    product_name both label the table. *)
Theorem pivot_completeness (df : DataFrame) (r p : string) :
  (pair_present df r p ->
   pivot_loc (pivot_analysis df) r p =
     Some (Some (stored (pivot_has_hole df)
                        (int64_sum (map revenue (pair_rows df r p)))))) /\
  (~ pair_present df r p ->
   (forall v, pivot_loc (pivot_analysis df) r p <> Some (Some v)) /\
   (forall cells, In (r, cells) (pivot_analysis df) ->
                  In p (map fst cells) ->
                  pivot_loc (pivot_analysis df) r p = Some None)).
Proof.
  split.
  - intros Hp. destruct (pair_present_labels df r p Hp) as [Hr Hc].
    rewrite pivot_loc_labels by assumption.
    f_equal. now apply pivot_cell_present.
  - intros Hn. split.
    + intros v Hv. apply pivot_loc_value in Hv.
      rewrite pivot_cell_absent in Hv by exact Hn. discriminate.
    + intros cells Hin Hp. apply in_pivot_analysis in Hin.
      destruct Hin as [Hr ->]. rewrite map_map in Hp. simpl in Hp.
      rewrite map_id in Hp.
      rewrite pivot_loc_labels by assumption.
      f_equal. now apply pivot_cell_absent.
Qed.

Lemma pivot_completeness_witness :
  pivot_loc (pivot_analysis full_grid_df) "West" "Widget"
    = Some (Some (Int64 20)) /\
  pivot_loc (pivot_analysis two_region_df) "West" "Widget"
    = Some (Some (Float64 20)) /\
  pivot_loc (pivot_analysis two_region_df) "West" "Gadget" = Some None.
Proof.
  split; [|split].
  - destruct (pivot_completeness full_grid_df "West" "Widget") as [Hin _].
    apply Hin. eexists. split; [left; reflexivity|]. simpl. auto.
  - destruct (pivot_completeness two_region_df "West" "Widget") as [Hin _].
    apply Hin. eexists. split; [left; reflexivity|]. simpl. auto.
  - destruct (pivot_completeness two_region_df "West" "Gadget") as [_ Hout].
    apply (proj2 (Hout
             ltac:(intros (x & Hx & Hr & Hp); simpl in Hx;
                   destruct Hx as [<-|[<-|[]]]; discriminate))
             [("Gadget"%string, None);
              ("Widget"%string, Some (Float64 20))]).
    + vm_compute. auto.
    + simpl. auto.
Defined.

(** C9 as first stated fails: in a table with an empty cell the cell of a
    pair whose revenue adds up to 2^53 + 1 holds the float64 2^53. *)
Lemma pivot_completeness_counterexample :
  exists f,
    pivot_loc (pivot_analysis large_sum_df) "West" "Gadget"
      = Some (Some (Float64 f)) /\
    float_to_Z f = Some 9007199254740992 /\
    int64_sum (map revenue (pair_rows large_sum_df "West" "Gadget"))
      = 9007199254740993.
Proof.
  eexists. split; [vm_compute; reflexivity|].
  split; vm_compute; reflexivity.
Qed.

(** * Further properties *)

(** ** More on the join *)

(** X2. In the frame that [preprocess_data] returns, the revenue of every
    row is its quantity times its price as an int64, hence within the int64
    range, and its month is the calendar month of its order_date. *)
Theorem frame_derived_columns
    (to_datetime : list (option string) -> string -> Result Timestamp)
    (sales : list SalesRecord) (customers : list CustomerRecord)
    (df : DataFrame) (r : EnrichedSalesRecord) :
  preprocess_data to_datetime sales customers = inr df -> In r df ->
  revenue r = int64_mul (quantity r) (price r) /\
  - 2 ^ 63 <= revenue r < 2 ^ 63 /\
  month r = option_map to_period_M (order_date r).
Proof.
  intros E Hr. apply preprocess_data_inr in E.
  destruct E as (ps & HF & ->). apply in_merge_inner in Hr.
  destruct Hr as (p & c & Hp & _ & _ & ->).
  destruct (Forall2_in_r _ _ _ p HF Hp) as (s & _ & Hs).
  apply prepare_inr in Hs. destruct Hs as (d & _ & ->). simpl.
  split; [reflexivity|]. split; [apply int64_wrap_range|reflexivity].
Qed.

Lemma frame_derived_columns_witness :
  revenue (joined 1 1 "Widget" 2 10 (mkTimestamp 2024 1 5) "West" "Alice")
    = 2 * 10 /\
  month (joined 1 1 "Widget" 2 10 (mkTimestamp 2024 1 5) "West" "Alice")
    = Some (mkPeriod 2024 1).
Proof.
  destruct (frame_derived_columns iso_to_datetime example_sales
              example_customers example_df
              (joined 1 1 "Widget" 2 10 (mkTimestamp 2024 1 5) "West" "Alice"))
    as (Hrev & _ & Hmonth).
  - reflexivity.
  - simpl. auto.
  - split; [exact Hrev|exact Hmonth].
Defined.

(** X3. The frame is the inner join: its rows are exactly the pairs of a
    sales row and a customer row with the same customer_id, carrying the
    columns of the sales row, the parsed date, the two derived columns and
    the customer's name.  A sales row without a customer, and a customer
    without a sale, leave no row. *)
Theorem join_characterisation
    (to_datetime : list (option string) -> string -> Result Timestamp)
    (sales : list SalesRecord) (customers : list CustomerRecord)
    (df : DataFrame) :
  preprocess_data to_datetime sales customers = inr df ->
  forall r, In r df <->
    exists s c d,
      In s sales /\ In c customers /\
      c_customer_id c = s_customer_id s /\
      read_date to_datetime (map s_order_date sales) (s_order_date s)
        = inr d /\
      r = mkEnriched (s_order_id s) (s_customer_id s) (s_product_name s)
            (s_quantity s) (s_price s) d (s_region s)
            (int64_mul (s_quantity s) (s_price s)) (option_map to_period_M d)
            (c_customer_name c).
Proof.
  intros E r. apply preprocess_data_inr in E. destruct E as (ps & HF & ->).
  rewrite in_merge_inner. split.
  - intros (p & c & Hp & Hc & Hid & ->).
    destruct (Forall2_in_r _ _ _ p HF Hp) as (s & Hs & Hps).
    apply prepare_inr in Hps. destruct Hps as (d & Hd & ->).
    exists s, c, d. simpl in *. auto 10.
  - intros (s & c & d & Hs & Hc & Hid & Hd & ->).
    destruct (Forall2_in_l _ _ _ s HF Hs) as (p & Hp & Hps).
    apply prepare_inr in Hps. destruct Hps as (d' & Hd' & ->).
    assert (d' = d) by congruence. subst d'.
    eexists. exists c. split; [exact Hp|]. simpl. auto.
Qed.

Lemma join_characterisation_witness :
  In (joined 2 1 "Widget" 1 10 (mkTimestamp 2024 2 10) "West" "Alice")
     example_df.
Proof.
  apply (join_characterisation iso_to_datetime example_sales
           example_customers example_df eq_refl).
  exists (sold 2 1 "Widget" 1 10 "2024-02-10" "West"),
         (customer 1 "Alice"), (Some (mkTimestamp 2024 2 10)).
  simpl. auto 10.
Defined.

(** X4. With pairwise distinct customer_ids in the customer table, the
    frame has one row for each sales row that has a customer, and none for
    the others. *)
Theorem join_row_count_exact
    (to_datetime : list (option string) -> string -> Result Timestamp)
    (sales : list SalesRecord) (customers : list CustomerRecord)
    (df : DataFrame) :
  preprocess_data to_datetime sales customers = inr df ->
  NoDup (map c_customer_id customers) ->
  List.length df = List.length (filter (has_customer customers) sales).
Proof.
  intros E Hnd. apply preprocess_data_inr in E. destruct E as (ps & HF & ->).
  apply (merge_inner_count sales ps customers Hnd).
  eapply Forall2_impl; [|exact HF].
  intros s p Hp. apply prepare_inr in Hp. destruct Hp as (d & _ & ->).
  reflexivity.
Qed.

Lemma join_row_count_exact_witness :
  exists df,
    preprocess_data iso_to_datetime
      [sold 1 1 "Widget" 2 10 "2024-01-05" "West";
       sold 2 7 "Gadget" 1 10 "2024-02-10" "East"]
      example_customers = inr df /\
    List.length df = 1%nat.
Proof.
  eexists. split; [reflexivity|].
  apply (join_row_count_exact iso_to_datetime
           [sold 1 1 "Widget" 2 10 "2024-01-05" "West";
            sold 2 7 "Gadget" 1 10 "2024-02-10" "East"]
           example_customers _ eq_refl).
  simpl. constructor; [simpl; tauto|constructor].
Defined.

(** X24. A customer table without rows, or a sales table without rows,
    gives the empty frame rather than an error, provided the dates can be
    read. *)
Theorem preprocess_data_empty_tables
    (to_datetime : list (option string) -> string -> Result Timestamp)
    (sales : list SalesRecord) (customers : list CustomerRecord)
    (df : DataFrame) :
  preprocess_data to_datetime sales customers = inr df ->
  sales = [] \/ customers = [] -> df = [].
Proof.
  intros E Hempty. destruct df as [|r df]; [reflexivity|]. exfalso.
  destruct (preprocess_data_row_origin _ _ _ _ r E)
    as (s & c & Hs & Hc & _); [now left|].
  destruct Hempty as [-> | ->]; contradiction.
Qed.

Lemma preprocess_data_empty_tables_witness :
  preprocess_data iso_to_datetime example_sales [] = inr [] /\
  @nil EnrichedSalesRecord = [].
Proof.
  split; [reflexivity|].
  apply (preprocess_data_empty_tables iso_to_datetime example_sales [] []
           eq_refl).
  now right.
Defined.

(** ** More on the grouped views *)

(** X5. [customer_revenue] has one entry per distinct customer_name of the
    frame, holding the revenue of all rows with that name: customers who
    share a name are ranked as one. *)
Theorem customer_revenue_entries (df : DataFrame) :
  NoDup (map fst (fst (customer_analysis df))) /\
  forall n v,
    In (n, v) (fst (customer_analysis df)) <->
    In (Some n) (map customer_name df) /\
    v = int64_sum
          (map revenue (filter (fun r => key_is n (customer_name r)) df)).
Proof.
  split.
  - apply (ranked_NoDup customer_name revenue).
  - intros n v. exact (ranked_In customer_name revenue df n v).
Qed.

(** X6. The index of [clv] lists the customer_ids of the frame once each in
    ascending order, and [clv] has no row for any other customer_id. *)
Theorem clv_index (df : DataFrame) :
  StronglySorted Z.lt (map fst (snd (customer_analysis df))) /\
  (forall c, In c (map fst (snd (customer_analysis df))) <->
             In (Some c) (map customer_id df)) /\
  (forall c, ~ In (Some c) (map customer_id df) ->
             loc c (snd (customer_analysis df)) = None).
Proof.
  rewrite clv_rows.
  assert (Hk : map fst (map (fun c => (c, clv_row df c))
                            (group_keys customer_id df)) =
               group_keys customer_id df)
    by (rewrite map_map; apply map_id).
  rewrite Hk. split; [|split].
  - eapply StronglySorted_weaken;
      [|apply (group_keys_strict customer_id df)].
    simpl. intros a b [Hle Hne]. apply Z.leb_le in Hle. lia.
  - intros c. apply in_group_keys.
  - intros c Hc. apply (loc_map_nokey (clv_row df)).
    now rewrite in_group_keys.
Qed.

(** X7. In a frame with int64 revenue where every row has a customer_id,
    the total_spent column of [clv] adds up to the revenue of the whole
    frame. *)
Theorem clv_total_spent_conservation (df : DataFrame) :
  all_present customer_id df ->
  int64_sum (map (fun x => total_spent (snd x)) (snd (customer_analysis df))) =
  int64_sum (map revenue df).
Proof.
  intros Hall. rewrite clv_rows, map_map. simpl.
  rewrite <- (groupby_sum_total_present customer_id revenue df Hall).
  unfold groupby_sum. now rewrite map_map.
Qed.

Lemma clv_total_spent_conservation_witness :
  int64_sum (map (fun x => total_spent (snd x))
                 (snd (customer_analysis two_region_df))) = 35.
Proof.
  apply (clv_total_spent_conservation two_region_df).
  intros r [<-|[<-|[]]]; discriminate.
Defined.

(** X8. A customer's total_orders never exceeds the number of the
    customer's rows: rows that repeat an order_id count once. *)
Theorem clv_orders_at_most_rows (df : DataFrame) (c : Z) (row : ClvRow) :
  In (c, row) (snd (customer_analysis df)) ->
  total_orders row <=
  Z.of_nat (List.length (filter (fun r => key_is c (customer_id r)) df)).
Proof.
  rewrite clv_rows, in_map_iff. intros (c' & E & _). inversion E; subst.
  change (total_orders (clv_row df c))
    with (nunique (map order_id (get_group customer_id c df))).
  change (filter (fun r => key_is c (customer_id r)) df)
    with (get_group customer_id c df).
  unfold nunique.
  pose proof (length_unique_le
                (dropna (map order_id (get_group customer_id c df)))) as Hle.
  pose proof (length_dropna_le (map order_id (get_group customer_id c df)))
    as Hle'.
  rewrite length_map in Hle'. lia.
Qed.

Lemma clv_orders_at_most_rows_witness :
  In (1, mkClv 30 1 30%float)
     (snd (customer_analysis
             [joined 1 1 "Widget" 2 10 (mkTimestamp 2024 1 5) "West" "Alice";
              joined 1 1 "Gadget" 1 10 (mkTimestamp 2024 1 5) "West" "Alice"]))
  /\ 1 <= 2.
Proof.
  assert (Hin : In (1, mkClv 30 1 30%float)
     (snd (customer_analysis
             [joined 1 1 "Widget" 2 10 (mkTimestamp 2024 1 5) "West" "Alice";
              joined 1 1 "Gadget" 1 10 (mkTimestamp 2024 1 5) "West" "Alice"])))
    by (vm_compute; auto).
  split; [exact Hin|].
  exact (clv_orders_at_most_rows _ 1 _ Hin).
Defined.

(** X9. In a frame with int64 revenue where every row has a month, that is,
    no order_date is missing, the revenue column of [monthly_sales] adds up
    to the revenue of the whole frame. *)
Theorem monthly_sales_conservation (df : DataFrame) :
  all_present month df ->
  int64_sum (map snd (fst (fst (sales_analysis df)))) =
  int64_sum (map revenue df).
Proof. apply (groupby_sum_total_present month revenue df). Qed.

Lemma monthly_sales_conservation_witness :
  int64_sum (map snd (fst (fst (sales_analysis example_df)))) = 30.
Proof.
  apply (monthly_sales_conservation example_df).
  intros r [<-|[<-|[]]]; discriminate.
Defined.

(** X10. The products kept in [top_products] are the best sellers: a
    product of the frame that is left out has a revenue sum no larger than
    that of any product kept. *)
Theorem top_products_dominate (df : DataFrame) (p p' : string) (v : Z) :
  In (p, v) (snd (fst (sales_analysis df))) ->
  In (Some p') (map product_name df) ->
  ~ In p' (map fst (snd (fst (sales_analysis df)))) ->
  int64_sum (map revenue (filter (fun r => key_is p' (product_name r)) df))
  <= v.
Proof.
  rewrite top_products_eq. unfold head.
  set (ranked := sort_values_desc (groupby_sum product_name revenue df)).
  set (v' := int64_sum _).
  intros Hin Hp' Hout.
  assert (Hr : In (p', v') ranked)
    by (apply (ranked_In product_name revenue df p' v'); auto).
  rewrite <- (firstn_skipn 10 ranked) in Hr. apply in_app_or in Hr.
  destruct Hr as [Hr|Hr].
  - exfalso. apply Hout. apply (in_map fst) in Hr. exact Hr.
  - pose proof (sort_values_desc_sorted
                  (groupby_sum product_name revenue df)) as Hs.
    fold ranked in Hs. rewrite <- (firstn_skipn 10 ranked) in Hs.
    apply (StronglySorted_app_cross _ _ _ Hs (p, v) (p', v') Hin Hr).
Qed.

Lemma top_products_dominate_witness :
  In ("P05"%string, 5) (snd (fst (sales_analysis eleven_products_df))) /\
  ~ In "P01"%string (map fst (snd (fst (sales_analysis eleven_products_df)))) /\
  1 <= 5.
Proof.
  assert (Hin : In ("P05"%string, 5)
                   (snd (fst (sales_analysis eleven_products_df))))
    by (vm_compute; auto 12).
  assert (Hout : ~ In "P01"%string
                     (map fst (snd (fst (sales_analysis eleven_products_df))))).
  { vm_compute. intros H.
    repeat (destruct H as [H|H]; [discriminate H|]). exact H. }
  split; [exact Hin|]. split; [exact Hout|].
  apply (top_products_dominate eleven_products_df "P05" "P01" 5 Hin);
    [vm_compute; auto 12|exact Hout].
Defined.

(** X11. With at most ten distinct product_names nothing is cut off:
    [top_products] lists every product of the frame, and in a frame with
    int64 revenue where every row has a product_name its values add up to
    the revenue of the whole frame. *)
Theorem top_products_all_when_few (df : DataFrame) (n : Z) :
  distinct_count (dropna (map product_name df)) n -> n <= 10 ->
  (forall p, In (Some p) (map product_name df) ->
             In p (map fst (snd (fst (sales_analysis df))))) /\
  (all_present product_name df ->
   int64_sum (map snd (snd (fst (sales_analysis df)))) =
     int64_sum (map revenue df)).
Proof.
  intros Hn Hle. rewrite top_products_eq. unfold head.
  rewrite firstn_all2.
  - split.
    + intros p Hp.
      eapply Permutation_in;
        [symmetry; apply Permutation_map, sort_values_desc_Permutation|].
      rewrite groupby_sum_keys. now apply in_group_keys.
    + intros Hall. rewrite sort_values_desc_total.
      now apply groupby_sum_total_present.
  - rewrite ranked_length.
    pose proof (group_keys_length product_name df n Hn). lia.
Qed.

Lemma top_products_all_when_few_witness :
  In "Gadget"%string (map fst (snd (fst (sales_analysis two_region_df)))) /\
  In "Widget"%string (map fst (snd (fst (sales_analysis two_region_df)))) /\
  int64_sum (map snd (snd (fst (sales_analysis two_region_df)))) = 35.
Proof.
  assert (Hd : distinct_count (dropna (map product_name two_region_df)) 2).
  { exists (group_keys product_name two_region_df).
    split; [apply NoDup_group_keys|]. split; [|reflexivity].
    intros x. rewrite in_dropna. apply in_group_keys. }
  destruct (top_products_all_when_few two_region_df 2 Hd) as [Hall Hsum];
    [lia|].
  split; [apply Hall; simpl; auto|].
  split; [apply Hall; simpl; auto|].
  apply Hsum. intros r [<-|[<-|[]]]; discriminate.
Defined.

(** X12. [region_sales] is not cut off: it has one entry for each region of
    the frame, holding the revenue of the rows of that region. *)
Theorem region_sales_entries (df : DataFrame) :
  NoDup (map fst (snd (sales_analysis df))) /\
  (forall r v,
     In (r, v) (snd (sales_analysis df)) <->
     In (Some r) (map region df) /\
     v = int64_sum
           (map revenue (filter (fun x => key_is r (region x)) df))) /\
  (forall n, distinct_count (dropna (map region df)) n ->
             Z.of_nat (List.length (snd (sales_analysis df))) = n).
Proof.
  split; [apply (ranked_NoDup region revenue)|]. split.
  - intros r v. exact (ranked_In region revenue df r v).
  - intros n Hn. change (snd (sales_analysis df))
      with (sort_values_desc (groupby_sum region revenue df)).
    rewrite ranked_length. now apply group_keys_length.
Qed.

(** X25. A row whose key is missing is counted in no group: for int64
    revenue the values of [customer_revenue] add up to the revenue of the
    rows that have a customer_name, and the values of [region_sales] to the
    revenue of the rows that have a region. *)
Theorem grouped_totals_skip_missing_keys (df : DataFrame) :
  int64_sum (map snd (fst (customer_analysis df))) =
    int64_sum (map revenue (filter (fun r => notna (customer_name r)) df)) /\
  int64_sum (map snd (snd (sales_analysis df))) =
    int64_sum (map revenue (filter (fun r => notna (region r)) df)).
Proof.
  change (fst (customer_analysis df))
    with (sort_values_desc (groupby_sum customer_name revenue df)).
  change (snd (sales_analysis df))
    with (sort_values_desc (groupby_sum region revenue df)).
  rewrite !sort_values_desc_total.
  split; apply groupby_sum_total.
Qed.

(** ** More on the pivot table *)

(** X13. The pivot table is rectangular and labelled in order: its rows are
    the regions of the rows that have a product_name, once each in ascending
    order, and every row has the same columns, the product_names of the
    rows that have a region, once each in ascending order. *)
Theorem pivot_shape (df : DataFrame) :
  StronglySorted string_lt (map fst (pivot_analysis df)) /\
  (forall r, In r (map fst (pivot_analysis df)) <->
     exists x, In x df /\ region x = Some r /\ product_name x <> None) /\
  exists columns,
    StronglySorted string_lt columns /\
    (forall p, In p columns <->
       exists x, In x df /\ product_name x = Some p /\ region x <> None) /\
    forall r cells, In (r, cells) (pivot_analysis df) ->
                    map fst cells = columns.
Proof.
  rewrite pivot_row_labels. split; [apply group_keys_string_lt|].
  split; [intros r; apply in_pivot_index|].
  exists (group_keys product_name (pivot_frame df)).
  split; [apply group_keys_string_lt|].
  split; [intros p; apply in_pivot_columns|].
  intros r cells Hin. apply in_pivot_analysis in Hin.
  destruct Hin as [_ ->]. rewrite map_map. apply map_id.
Qed.

(** The number a group contributes to a sum over the cells of a row. *)
Lemma pivot_sum_value (df : DataFrame) (r p : string) :
  match pivot_sum df r p with Some v => v | None => 0 end =
  int64_sum (map revenue (get_group product_name p (get_group region r df))).
Proof.
  unfold pivot_sum, get_group at 2.
  destruct (filter _ (get_group region r df)); reflexivity.
Qed.

Lemma Zsum_int_cells {A} (f : A -> option Z) (l : list A) :
  Zsum (cell_values (map (fun x => option_map Int64 (f x)) l)) =
  Zsum (map (fun x => match f x with Some v => v | None => 0 end) l).
Proof.
  unfold cell_values. induction l as [|x l IH]; simpl; [reflexivity|].
  rewrite Zsum_app, IH. destruct (f x); simpl; lia.
Qed.

(** In a table without empty cell, a row adds up to the revenue of the
    rows of its region that have a product_name. *)
Lemma pivot_row_total (df : DataFrame) (r : string) :
  pivot_has_hole df = false ->
  int64_sum
    (cell_values
       (map (fun p => pivot_cell df r p)
            (group_keys product_name (pivot_frame df)))) =
  int64_sum
    (map revenue
         (filter (fun x => notna (product_name x)) (get_group region r df))).
Proof.
  intros Hfull. unfold pivot_cell. rewrite Hfull.
  change (stored false) with Int64.
  rewrite !int64_sum_Zsum, Zsum_int_cells.
  rewrite (map_ext _ _ (pivot_sum_value df r)).
  rewrite (map_ext _
             (fun p => int64_wrap
                (Zsum (map revenue
                   (get_group product_name p (get_group region r df))))))
    by (intros; apply int64_sum_Zsum).
  rewrite int64_wrap_Zsum_map. f_equal.
  apply Zsum_groups; [apply NoDup_group_keys|].
  intros x p Hx Hp. apply in_get_group in Hx. destruct Hx as [Hx Hr].
  apply in_pivot_columns. exists x.
  rewrite Hr. repeat split; [assumption|assumption|discriminate].
Qed.

(** X14. In a pivot table without empty cell, built from int64 revenue, the
    cells of a row add up to the regional total: when every row of that
    region has a product_name, their sum is that region's value in
    [region_sales]. *)
Theorem pivot_row_sums (df : DataFrame) (r : string)
    (cells : list (string * option Number)) :
  In (r, cells) (pivot_analysis df) ->
  pivot_has_hole df = false ->
  (forall x, In x df -> region x = Some r -> product_name x <> None) ->
  In (r, int64_sum (cell_values (map snd cells))) (snd (sales_analysis df)).
Proof.
  intros Hin Hfull Hprod. apply in_pivot_analysis in Hin.
  destruct Hin as [Hr ->]. rewrite map_map. simpl map at 1.
  apply (ranked_In region revenue df). split.
  - apply in_pivot_index in Hr. destruct Hr as (x & Hx & Hxr & _).
    rewrite <- Hxr. now apply in_map.
  - rewrite (pivot_row_total df r Hfull), filter_all; [reflexivity|].
    intros x Hx. apply in_get_group in Hx. destruct Hx as [Hx Hxr].
    apply notna_true. now apply Hprod.
Qed.

Lemma pivot_row_sums_witness :
  In ("East"%string,
      [("Gadget"%string, Some (Int64 14)); ("Widget"%string, Some (Int64 30))])
     (pivot_analysis full_grid_df) /\
  In ("East"%string, 44) (snd (sales_analysis full_grid_df)).
Proof.
  assert (Hin : In ("East"%string,
                    [("Gadget"%string, Some (Int64 14));
                     ("Widget"%string, Some (Int64 30))])
                   (pivot_analysis full_grid_df))
    by (vm_compute; auto).
  split; [exact Hin|].
  apply (pivot_row_sums full_grid_df _ _ Hin).
  - reflexivity.
  - intros x [<-|[<-|[<-|[<-|[]]]]] _; discriminate.
Defined.

(** X15. In a pivot table without empty cell, built from int64 revenue in a
    frame where every row has a region and a product_name, all the cells
    together add up to the revenue of the whole frame. *)
Theorem pivot_grand_total (df : DataFrame) :
  pivot_has_hole df = false ->
  all_present region df -> all_present product_name df ->
  int64_sum
    (cell_values (flat_map (fun row => map snd (snd row)) (pivot_analysis df)))
  = int64_sum (map revenue df).
Proof.
  intros Hfull Hreg Hprod.
  assert (Hframe : pivot_frame df = df).
  { apply filter_all. intros x Hx. apply andb_true_iff.
    split; apply notna_true; [now apply Hreg|now apply Hprod]. }
  rewrite <- (groupby_sum_total_present region revenue df Hreg).
  unfold pivot_analysis, groupby_sum. rewrite map_map.
  rewrite !int64_sum_Zsum. rewrite Hframe at 1.
  induction (group_keys region df) as [|r rs IH]; [reflexivity|].
  simpl. unfold cell_values in *. rewrite flat_map_app, Zsum_app.
  rewrite <- int64_wrap_add_r, IH, int64_wrap_add_r.
  rewrite <- int64_wrap_add_l. f_equal. f_equal.
  rewrite map_map. simpl.
  pose proof (pivot_row_total df r Hfull) as Hrow.
  rewrite !int64_sum_Zsum in Hrow. unfold cell_values in Hrow.
  rewrite Hrow, <- int64_sum_Zsum. f_equal. f_equal.
  apply filter_all. intros x Hx. apply in_get_group in Hx.
  apply notna_true. now apply Hprod.
Qed.

Lemma pivot_grand_total_witness :
  int64_sum
    (cell_values
       (flat_map (fun row => map snd (snd row)) (pivot_analysis full_grid_df)))
  = 71.
Proof.
  apply (pivot_grand_total full_grid_df).
  - reflexivity.
  - intros x [<-|[<-|[<-|[<-|[]]]]]; discriminate.
  - intros x [<-|[<-|[<-|[<-|[]]]]]; discriminate.
Defined.

(** X16. No row and no column of the pivot table is empty throughout: every
    row of the table holds a number in some column, and every column of the
    table holds a number in some row. *)
Theorem pivot_no_empty_line (df : DataFrame) :
  (forall r cells, In (r, cells) (pivot_analysis df) ->
     exists p v, In (p, Some v) cells) /\
  (forall r0 cells0 p,
     In (r0, cells0) (pivot_analysis df) -> In p (map fst cells0) ->
     exists r cells v,
       In (r, cells) (pivot_analysis df) /\ In (p, Some v) cells).
Proof.
  split.
  - intros r cells Hin. apply in_pivot_analysis in Hin.
    destruct Hin as [Hr ->]. apply in_pivot_index in Hr.
    destruct Hr as (x & Hx & Hxr & Hxp).
    destruct (product_name x) as [p|] eqn:Ep; [|congruence].
    assert (Hpair : pair_present df r p) by (exists x; auto).
    exists p. eexists. apply in_map_iff. exists p. split.
    + f_equal. now apply pivot_cell_present.
    + now apply (pair_present_labels df r p).
  - intros r0 cells0 p Hin0 Hp. apply in_pivot_analysis in Hin0.
    destruct Hin0 as [_ ->]. rewrite map_map in Hp. simpl in Hp.
    rewrite map_id in Hp. apply in_pivot_columns in Hp.
    destruct Hp as (x & Hx & Hxp & Hxr).
    destruct (region x) as [r|] eqn:Er; [|congruence].
    assert (Hpair : pair_present df r p) by (exists x; auto).
    exists r. eexists. eexists. split.
    + apply in_pivot_analysis. split; [|reflexivity].
      now apply (pair_present_labels df r p).
    + apply in_map_iff. exists p. split.
      * f_equal. now apply pivot_cell_present.
      * now apply (pair_present_labels df r p).
Qed.

Lemma pivot_no_empty_line_witness :
  exists r cells v,
    In (r, cells) (pivot_analysis two_region_df) /\
    In ("Gadget"%string, Some v) cells.
Proof.
  destruct (pivot_no_empty_line two_region_df) as [_ Hcol].
  apply (Hcol "West"%string
              [("Gadget"%string, None);
               ("Widget"%string, Some (Float64 20))]).
  - vm_compute. auto.
  - simpl. auto.
Defined.

(** ** More on the report *)

Lemma customer_revenue_nil_iff (df : DataFrame) :
  fst (customer_analysis df) = [] <->
  (forall r, In r df -> customer_name r = None).
Proof. apply (ranked_nil_iff customer_name revenue df). Qed.

Lemma print_summary_inr (df : DataFrame) (cr : Series string) (sm : Summary) :
  print_summary df cr = inr sm ->
  exists k v t,
    cr = (k, v) :: t /\
    sm = {| total_revenue := int64_sum (map revenue df);
            total_customers := nunique (map customer_id df);
            mean_order_value :=
              mean (map snd (groupby_sum order_id revenue df));
            top_customer := k;
            top_customer_value := v |}.
Proof.
  destruct cr as [|[k v] t]; [discriminate|].
  intros E. inversion E. exists k, v, t. auto.
Qed.

(** X17. On a frame in which some row has a customer_name, [print_summary],
    given the ranking that [customer_analysis] computes, reports an entry of
    that ranking as the top customer, and no customer of the ranking has a
    larger revenue; the total revenue it reports is the sum of the revenue
    column, and the number of customers the number of distinct
    customer_ids. *)
Theorem print_summary_top_customer (df : DataFrame) :
  (exists r, In r df /\ customer_name r <> None) ->
  exists sm,
    print_summary df (fst (customer_analysis df)) = inr sm /\
    In (top_customer sm, top_customer_value sm) (fst (customer_analysis df)) /\
    (forall n v, In (n, v) (fst (customer_analysis df)) ->
                 v <= top_customer_value sm) /\
    total_revenue sm = int64_sum (map revenue df) /\
    distinct_count (dropna (map customer_id df)) (total_customers sm).
Proof.
  intros (r & Hr & Hname).
  pose proof (sort_values_desc_sorted (groupby_sum customer_name revenue df))
    as Hs.
  change (sort_values_desc (groupby_sum customer_name revenue df))
    with (fst (customer_analysis df)) in Hs.
  destruct (fst (customer_analysis df)) as [|[k v] t] eqn:Ecr.
  - exfalso. apply Hname.
    now apply (proj1 (customer_revenue_nil_iff df) Ecr).
  - eexists. split; [reflexivity|]. simpl.
    split; [now left|]. split.
    + inversion Hs as [|? ? _ Hall]; subst. rewrite Forall_forall in Hall.
      intros n w [E|Hin]; [inversion E; lia|]. apply (Hall _ Hin).
    + split; [reflexivity|apply nunique_distinct_count].
Qed.

Lemma print_summary_top_customer_witness :
  exists sm,
    print_summary two_region_df (fst (customer_analysis two_region_df))
      = inr sm /\
    top_customer sm = "Alice"%string /\ top_customer_value sm = 20.
Proof.
  destruct (print_summary_top_customer two_region_df) as (sm & Hsm & _).
  - eexists. split; [left; reflexivity|]. discriminate.
  - exists sm. split; [exact Hsm|].
    vm_compute in Hsm. inversion Hsm. split; reflexivity.
Defined.

(** X18. Given the ranking that [customer_analysis] computes,
    [print_summary] fails exactly when no row of the frame has a
    customer_name, the empty frame included, and then with the IndexError of
    its first positional read. *)
Theorem print_summary_fails_iff_nameless (df : DataFrame) (e : Exception) :
  print_summary df (fst (customer_analysis df)) = inl e <->
  (forall r, In r df -> customer_name r = None) /\ e = IndexError.
Proof.
  split.
  - intros E. destruct (fst (customer_analysis df)) as [|[k v] t] eqn:Ecr.
    + pose proof (proj1 (customer_revenue_nil_iff df) Ecr) as Hall.
      inversion E. auto.
    + discriminate.
  - intros [Hall ->].
    rewrite (proj2 (customer_revenue_nil_iff df) Hall). reflexivity.
Qed.

(** ** The whole run *)

Lemma main_inr
    (to_datetime : list (option string) -> string -> Result Timestamp)
    (sales : list SalesRecord) (customers : list CustomerRecord)
    (rep : Report) :
  main to_datetime sales customers = inr rep ->
  exists df,
    preprocess_data to_datetime sales customers = inr df /\
    print_summary df (fst (customer_analysis df)) = inr (r_summary rep).
Proof.
  unfold main. intros E.
  destruct (preprocess_data to_datetime sales customers) as [e|df];
    simpl in E; [discriminate|].
  exists df. split; [reflexivity|].
  destruct (print_summary df
              (sort_values_desc (groupby_sum customer_name revenue df)))
    as [e|sm] eqn:Es; simpl in E; [discriminate|].
  inversion E. simpl. exact Es.
Qed.

(** X20. [main] completes only if every order_date can be read and some
    sales row has a customer: otherwise no report is printed and no pivot
    file is written. *)
Theorem main_returns_only_if
    (to_datetime : list (option string) -> string -> Result Timestamp)
    (sales : list SalesRecord) (customers : list CustomerRecord)
    (rep : Report) :
  main to_datetime sales customers = inr rep ->
  (forall s str, In s sales -> s_order_date s = Some str ->
     exists d, to_datetime (map s_order_date sales) str = inr d) /\
  exists s, In s sales /\ has_customer customers s = true.
Proof.
  intros E. apply main_inr in E. destruct E as (df & Hdf & Hsm). split.
  - intros s str Hs Hstr.
    destruct (preprocess_data_dates _ _ _ _ Hdf s Hs) as [d Hd].
    rewrite Hstr in Hd. simpl in Hd.
    destruct (to_datetime (map s_order_date sales) str) as [e|t];
      [discriminate|]. eauto.
  - destruct df as [|r df]; [discriminate|].
    destruct (preprocess_data_row_origin _ _ _ _ r Hdf)
      as (s & c & Hs & Hc & Hid); [now left|].
    exists s. split; [exact Hs|]. unfold has_customer.
    apply existsb_exists. exists c. split; [exact Hc|].
    now apply key_eqb_true.
Qed.

Lemma main_returns_only_if_witness :
  exists s, In s example_sales /\ has_customer example_customers s = true.
Proof.
  destruct (main iso_to_datetime example_sales example_customers)
    as [e|rep] eqn:E; [vm_compute in E; discriminate|].
  exact (proj2 (main_returns_only_if iso_to_datetime example_sales
                  example_customers rep E)).
Defined.

(** X21. One unreadable order_date aborts the run: [main] then raises an
    exception that the date reader raised on some sales row, before any view
    is computed. *)
Theorem main_date_error
    (to_datetime : list (option string) -> string -> Result Timestamp)
    (sales : list SalesRecord) (customers : list CustomerRecord)
    (s : SalesRecord) (str : string) (e : Exception) :
  In s sales -> s_order_date s = Some str ->
  to_datetime (map s_order_date sales) str = inl e ->
  exists e' s' str',
    main to_datetime sales customers = inl e' /\
    In s' sales /\ s_order_date s' = Some str' /\
    to_datetime (map s_order_date sales) str' = inl e'.
Proof.
  intros Hs Hstr He. unfold main.
  destruct (preprocess_data to_datetime sales customers) as [e'|df] eqn:E.
  - exists e'. apply preprocess_data_inl in E.
    destruct E as (s' & str' & Hs' & Hstr' & He'). exists s', str'.
    simpl. auto.
  - exfalso.
    destruct (preprocess_data_dates _ _ _ _ E s Hs) as [d Hd].
    rewrite Hstr in Hd. simpl in Hd. rewrite He in Hd. discriminate.
Qed.

Lemma main_date_error_witness :
  exists e' s' str',
    main iso_to_datetime
      [sold 1 1 "Widget" 2 10 "2024-01-05" "West";
       sold 2 1 "Widget" 1 10 "2024-02-30" "West"] example_customers
      = inl e' /\
    In s' [sold 1 1 "Widget" 2 10 "2024-01-05" "West";
           sold 2 1 "Widget" 1 10 "2024-02-30" "West"] /\
    s_order_date s' = Some str' /\
    iso_to_datetime
      (map s_order_date
           [sold 1 1 "Widget" 2 10 "2024-01-05" "West";
            sold 2 1 "Widget" 1 10 "2024-02-30" "West"]) str' = inl e'.
Proof.
  apply (main_date_error iso_to_datetime _ example_customers
           (sold 2 1 "Widget" 1 10 "2024-02-30" "West") "2024-02-30"
           (ValueError "2024-02-30")).
  - simpl. auto.
  - reflexivity.
  - reflexivity.
Defined.

(** ** Independence of the row order *)

Lemma nunique_Permutation {K} `{LabelOk K} (l l' : list (option K)) :
  Permutation l l' -> nunique l = nunique l'.
Proof.
  intros HP. unfold nunique. f_equal.
  apply NoDup_same_length; try apply NoDup_unique.
  intros x. rewrite !in_unique, !in_dropna.
  split; apply Permutation_in; [|symmetry]; exact HP.
Qed.

Lemma clv_agg_Permutation (df df' : DataFrame) :
  Permutation df df' -> clv_agg df = clv_agg df'.
Proof.
  intros HP. unfold clv_agg.
  rewrite (group_keys_Permutation customer_id df df' HP).
  apply map_ext. intros c. simpl.
  assert (Hg : Permutation (get_group customer_id c df)
                           (get_group customer_id c df'))
    by now apply filter_Permutation.
  f_equal. f_equal.
  - now apply int64_sum_Permutation, Permutation_map.
  - now apply nunique_Permutation, Permutation_map.
Qed.

Lemma pivot_sum_Permutation (df df' : DataFrame) (r p : string) :
  Permutation df df' -> pivot_sum df r p = pivot_sum df' r p.
Proof.
  intros HP. rewrite !pivot_sum_rows.
  assert (Hg : Permutation (pair_rows df r p) (pair_rows df' r p))
    by now apply filter_Permutation.
  destruct (pair_rows df r p) as [|x g], (pair_rows df' r p) as [|x' g'].
  - reflexivity.
  - apply Permutation_nil in Hg. discriminate.
  - symmetry in Hg. apply Permutation_nil in Hg. discriminate.
  - f_equal. now apply int64_sum_Permutation, Permutation_map.
Qed.

Lemma existsb_ext {A} (f g : A -> bool) (l : list A) :
  (forall x, f x = g x) -> existsb f l = existsb g l.
Proof.
  intros Hfg. induction l as [|x l IH]; simpl; [reflexivity|].
  now rewrite Hfg, IH.
Qed.

Lemma pivot_analysis_Permutation (df df' : DataFrame) :
  Permutation df df' -> pivot_analysis df = pivot_analysis df'.
Proof.
  intros HP.
  assert (HF : Permutation (pivot_frame df) (pivot_frame df'))
    by now apply filter_Permutation.
  assert (Hhole : pivot_has_hole df = pivot_has_hole df').
  { unfold pivot_has_hole.
    rewrite (group_keys_Permutation region _ _ HF).
    rewrite (group_keys_Permutation product_name _ _ HF).
    apply existsb_ext. intros r. apply existsb_ext. intros p.
    now rewrite (pivot_sum_Permutation df df' r p HP). }
  unfold pivot_analysis.
  rewrite (group_keys_Permutation region _ _ HF).
  rewrite (group_keys_Permutation product_name _ _ HF).
  apply map_ext. intros r. f_equal. apply map_ext. intros p. f_equal.
  unfold pivot_cell. now rewrite Hhole, (pivot_sum_Permutation df df' r p HP).
Qed.

(** X22. For frames with int64 revenue the views do not depend on the order
    of the rows: two frames with the same rows give the same
    [customer_analysis], [sales_analysis] and [pivot_analysis]. *)
Theorem analyses_order_independent (df df' : DataFrame) :
  Permutation df df' ->
  customer_analysis df = customer_analysis df' /\
  sales_analysis df = sales_analysis df' /\
  pivot_analysis df = pivot_analysis df'.
Proof.
  intros HP. unfold customer_analysis, sales_analysis.
  rewrite (clv_agg_Permutation df df' HP).
  rewrite (groupby_sum_Permutation customer_name revenue df df' HP).
  rewrite (groupby_sum_Permutation month revenue df df' HP).
  rewrite (groupby_sum_Permutation product_name revenue df df' HP).
  rewrite (groupby_sum_Permutation region revenue df df' HP).
  split; [reflexivity|]. split; [reflexivity|].
  now apply pivot_analysis_Permutation.
Qed.

Lemma analyses_order_independent_witness :
  customer_analysis two_region_df = customer_analysis (rev two_region_df) /\
  sales_analysis two_region_df = sales_analysis (rev two_region_df) /\
  pivot_analysis two_region_df = pivot_analysis (rev two_region_df).
Proof.
  apply (analyses_order_independent two_region_df (rev two_region_df)).
  apply Permutation_rev.
Defined.

(** ** Empty views *)

(** X23. A view is empty exactly when no row of the frame has its key:
    [customer_revenue] when no row has a customer_name, [clv] when none has
    a customer_id, [monthly_sales] when none has a month, [top_products]
    when none has a product_name, [region_sales] when none has a region, and
    the pivot table when no row has both a region and a product_name.  In
    particular the empty frame gives six empty views and no error. *)
Theorem views_empty_iff (df : DataFrame) :
  (fst (customer_analysis df) = [] <->
     forall r, In r df -> customer_name r = None) /\
  (snd (customer_analysis df) = [] <->
     forall r, In r df -> customer_id r = None) /\
  (fst (fst (sales_analysis df)) = [] <->
     forall r, In r df -> month r = None) /\
  (snd (fst (sales_analysis df)) = [] <->
     forall r, In r df -> product_name r = None) /\
  (snd (sales_analysis df) = [] <->
     forall r, In r df -> region r = None) /\
  (pivot_analysis df = [] <->
     forall r, In r df -> region r = None \/ product_name r = None).
Proof.
  split; [apply customer_revenue_nil_iff|].
  split.
  { rewrite clv_rows, <- (group_keys_nil_iff customer_id df).
    split; [apply map_eq_nil|intros ->; reflexivity]. }
  split.
  { change (fst (fst (sales_analysis df)))
      with (groupby_sum month revenue df).
    rewrite <- (group_keys_nil_iff month df). unfold groupby_sum.
    split; [apply map_eq_nil|intros ->; reflexivity]. }
  split.
  { rewrite top_products_eq. unfold head.
    rewrite <- (ranked_nil_iff product_name revenue df).
    destruct (sort_values_desc (groupby_sum product_name revenue df))
      as [|x l]; [tauto|].
    simpl. split; discriminate. }
  split; [apply (ranked_nil_iff region revenue df)|].
  unfold pivot_analysis. split.
  - intros E r Hr. apply map_eq_nil in E.
    destruct (region r) as [k|] eqn:Ek; [|now left]. right.
    destruct (product_name r) as [p|] eqn:Ep; [|reflexivity]. exfalso.
    assert (Hin : In k (group_keys region (pivot_frame df))).
    { apply in_pivot_index. exists r. rewrite Ep.
      repeat split; [assumption|assumption|discriminate]. }
    rewrite E in Hin. exact Hin.
  - intros Hall.
    destruct (group_keys region (pivot_frame df)) as [|k ks] eqn:E;
      [reflexivity|]. exfalso.
    assert (Hin : In k (group_keys region (pivot_frame df)))
      by (rewrite E; now left).
    apply in_pivot_index in Hin. destruct Hin as (x & Hx & Hxr & Hxp).
    destruct (Hall x Hx); congruence.
Qed.
